(** * Karaoke player: LRC parsing, timing adjustment and the playback loop

    A shallow embedding of the lyrics engine of the player
    ([support/karaoke_universal.py], [main.py]) and of the timing adjuster
    ([support/adjust_timing.py]), with the properties of its specification.

    Python values are represented as follows.
    - [str] is [string]; the texts handled here are ASCII, one [ascii] per
      character.
    - [int] is [Z] (unbounded).
    - [float] is an IEEE 754 binary64 number, represented by the Standard
      Library's [spec_float] and its correctly rounded operations at
      precision 53 and maximal exponent 1024.
    - a raised exception is [None] in an [option] result. *)

From Stdlib Require Import ZArith List Bool Ascii String Lia Sorted Permutation.
From Stdlib Require Import Floats.SpecFloat.
Import ListNotations.

Local Open Scope Z_scope.

(** ** Python floats *)

Module PyFloat.

Definition float := spec_float.

Definition prec : Z := 53.
Definition emax : Z := 1024.

Definition add : float -> float -> float := SFadd prec emax.
Definition sub : float -> float -> float := SFsub prec emax.
Definition mul : float -> float -> float := SFmul prec emax.
Definition div : float -> float -> float := SFdiv prec emax.

Definition eqb : float -> float -> bool := SFeqb.
Definition ltb : float -> float -> bool := SFltb.
Definition leb : float -> float -> bool := SFleb.
Definition gtb (x y : float) : bool := SFltb y x.
Definition geb (x y : float) : bool := SFleb y x.

(** The float nearest to an integer (ties to even); an infinity when the
    integer is out of range. *)
Definition of_Z (z : Z) : float := binary_normalize prec emax z 0 false.

(** [float(z)] as the interpreter converts an [int] operand of a float
    operation: [OverflowError] when the integer is too large. *)
Definition of_int (z : Z) : option float :=
  match of_Z z with
  | S754_infinity _ => None
  | f => Some f
  end.

Definition zero : float := S754_zero false.
Definition one : float := Eval vm_compute in of_Z 1.
Definition ten : float := Eval vm_compute in of_Z 10.
Definition fifty : float := Eval vm_compute in of_Z 50.
Definition sixty : float := Eval vm_compute in of_Z 60.
Definition hundred : float := Eval vm_compute in of_Z 100.
Definition half : float := Eval vm_compute in div (of_Z 1) (of_Z 2).

(** [int(x)]: truncation toward zero; [ValueError] on NaN and
    [OverflowError] on an infinity. *)
Definition to_int (x : float) : option Z :=
  match x with
  | S754_zero _ => Some 0
  | S754_finite s m e => Some (cond_Zopp s (Z.shiftl (Zpos m) e))
  | S754_infinity _ | S754_nan => None
  end.

(** C's [floor]. *)
Definition floor (x : float) : float :=
  match x with
  | S754_finite s m e =>
      if 0 <=? e then x
      else
        let q := Z.shiftl (Zpos m) e in
        let exact := Z.shiftl q (- e) =? Zpos m in
        let v := if s then (if exact then - q else - q - 1) else q in
        binary_normalize prec emax v 0 s
  | _ => x
  end.

(** C's [fmod]: the exact remainder, with the sign of the dividend. *)
Definition fmod (x y : float) : float :=
  match x, y with
  | S754_nan, _ | _, S754_nan => S754_nan
  | S754_infinity _, _ => S754_nan
  | _, S754_zero _ => S754_nan
  | S754_zero _, _ => x
  | _, S754_infinity _ => x
  | S754_finite sx mx ex, S754_finite _ my ey =>
      let ez := Z.min ex ey in
      let ax := Zpos (fst (shl_align mx ex ez)) in
      let ay := Zpos (fst (shl_align my ey ez)) in
      binary_normalize prec emax (cond_Zopp sx (Z.rem ax ay)) ez sx
  end.

Definition signbit (x : float) : bool :=
  match x with
  | S754_zero s | S754_infinity s | S754_finite s _ _ => s
  | S754_nan => false
  end.

(** C truth value of a double: anything but a zero. *)
Definition nonzero (x : float) : bool := negb (eqb x zero).

(** [x % y] on floats ([float_rem]); [ZeroDivisionError] when [y] is zero. *)
Definition rem (vx wx : float) : option float :=
  if eqb wx zero then None
  else
    let m := fmod vx wx in
    Some (if nonzero m
          then if xorb (ltb wx zero) (ltb m zero) then add m wx else m
          else S754_zero (signbit wx)).

(** [x // y] on floats ([float_floor_div], through [_float_div_mod]). *)
Definition floordiv (vx wx : float) : option float :=
  if eqb wx zero then None
  else
    let m := fmod vx wx in
    let d := div (sub vx m) wx in
    let d := if nonzero m
             then if xorb (ltb wx zero) (ltb m zero) then sub d one else d
             else d in
    Some (if nonzero d
          then let f := floor d in
               if gtb (sub d f) half then add f one else f
          else S754_zero (signbit (div vx wx))).

(** [min(x, y)] of two floats: the first argument unless the second is
    smaller. *)
Definition min (x y : float) : float := if ltb y x then y else x.

End PyFloat.

(** ** Python strings *)

Module PyStr.

Definition ord (c : ascii) : Z := Z.of_N (N_of_ascii c).

(** [str.isspace] on ASCII: tab, line feed, vertical tab, form feed,
    carriage return, the four separators 0x1c-0x1f, and the space. *)
Definition isspace (c : ascii) : bool :=
  ((9 <=? ord c) && (ord c <=? 13)) || ((28 <=? ord c) && (ord c <=? 32)).

Definition LF : ascii := "010"%char.

Definition len (s : string) : Z := Z.of_nat (String.length s).

(** [not s]: the empty string is the false one. *)
Definition is_empty (s : string) : bool :=
  match s with
  | EmptyString => true
  | String _ _ => false
  end.

Fixpoint lstrip_by (p : ascii -> bool) (s : string) : string :=
  match s with
  | EmptyString => EmptyString
  | String c s' => if p c then lstrip_by p s' else s
  end.

Fixpoint rstrip_by (p : ascii -> bool) (s : string) : string :=
  match s with
  | EmptyString => EmptyString
  | String c s' =>
      match rstrip_by p s' with
      | EmptyString => if p c then EmptyString else String c EmptyString
      | r => String c r
      end
  end.

(** [s.strip()] *)
Definition strip (s : string) : string := rstrip_by isspace (lstrip_by isspace s).

(** [s.rstrip('\n\r')] *)
Definition is_newline (c : ascii) : bool := (ord c =? 10) || (ord c =? 13).
Definition rstrip_newlines (s : string) : string := rstrip_by is_newline s.

(** [c in s] for a one-character [c]. *)
Fixpoint contains (c : ascii) (s : string) : bool :=
  match s with
  | EmptyString => false
  | String a s' => Ascii.eqb a c || contains c s'
  end.

(** [s.find(c)]: the lowest index of [c], or [-1]. *)
Fixpoint find (c : ascii) (s : string) : Z :=
  match s with
  | EmptyString => -1
  | String a s' =>
      if Ascii.eqb a c then 0
      else let r := find c s' in if r <? 0 then -1 else r + 1
  end.

Fixpoint drop (n : nat) (s : string) : string :=
  match n, s with
  | O, _ => s
  | S n', String _ s' => drop n' s'
  | S _, EmptyString => EmptyString
  end.

Fixpoint take (n : nat) (s : string) : string :=
  match n, s with
  | S n', String c s' => String c (take n' s')
  | _, _ => EmptyString
  end.

(** A slice bound as the interpreter adjusts it: a negative bound counts
    from the end, and both are clipped to the string. *)
Definition clip (n i : Z) : Z := if i <? 0 then Z.max 0 (i + n) else Z.min i n.

(** [s[lo:hi]] *)
Definition slice (s : string) (lo hi : Z) : string :=
  let a := clip (len s) lo in
  let b := clip (len s) hi in
  take (Z.to_nat (b - a)) (drop (Z.to_nat a) s).

(** [s[lo:]] *)
Definition slice_from (s : string) (lo : Z) : string := slice s lo (len s).

(** [s.split(sep)] for a one-character separator. *)
Fixpoint split (sep : ascii) (s : string) : list string :=
  match s with
  | EmptyString => [EmptyString]
  | String c s' =>
      if Ascii.eqb c sep then EmptyString :: split sep s'
      else match split sep s' with
           | h :: t => String c h :: t
           | [] => [String c EmptyString]
           end
  end.

(** [sep.join(parts)] *)
Fixpoint join (sep : string) (parts : list string) : string :=
  match parts with
  | [] => EmptyString
  | [p] => p
  | p :: ps => p ++ sep ++ join sep ps
  end.

(** [file.readlines()] of a text file opened with universal newlines: the
    lines keep their terminator, always read as a line feed. *)
Fixpoint readlines (s : string) : list string :=
  match s with
  | EmptyString => []
  | String c s' =>
      if ord c =? 10 then String LF EmptyString :: readlines s'
      else if ord c =? 13 then
        match s' with
        | String c' s'' =>
            if ord c' =? 10 then String LF EmptyString :: readlines s''
            else String LF EmptyString :: readlines s'
        | EmptyString => [String LF EmptyString]
        end
      else match readlines s' with
           | l :: ls => String c l :: ls
           | [] => [String c EmptyString]
           end
  end.

Definition digit_val (c : ascii) : option Z :=
  if (48 <=? ord c) && (ord c <=? 57) then Some (ord c - 48) else None.

(** The digits of an integer literal, most significant first; a single
    underscore may separate two digits. [prev] tells that the character
    before was a digit. *)
Fixpoint int_digits (acc : Z) (prev : bool) (s : string) : option Z :=
  match s with
  | EmptyString => if prev then Some acc else None
  | String c s' =>
      match digit_val c with
      | Some d => int_digits (acc * 10 + d) true s'
      | None => if Ascii.eqb c "_"%char && prev then int_digits acc false s' else None
      end
  end.

(** The whitespace that [int] skips around a literal given as an ASCII
    [str]: tab, line feed, vertical tab, form feed, carriage return and the
    space. The separators 0x1c-0x1f, which [str.strip] removes, are not
    among them: [int] refuses a literal that has one. *)
Definition is_int_space (c : ascii) : bool :=
  ((9 <=? ord c) && (ord c <=? 13)) || (ord c =? 32).

Definition int_strip (s : string) : string :=
  rstrip_by is_int_space (lstrip_by is_int_space s).

(** [int(s)] in base ten, for an ASCII [s]: surrounding whitespace, an
    optional sign, digits. [None] is [ValueError]. The interpreter's bound
    on the number of digits of a literal ([sys.get_int_max_str_digits()]:
    4300 by default in the versions that have it, none when it is set to
    0) is a setting of the interpreter and is not modelled: this is [int]
    without the bound. *)
Definition int_of_str (s : string) : option Z :=
  match int_strip s with
  | String c s' =>
      if Ascii.eqb c "-"%char then option_map Z.opp (int_digits 0 false s')
      else if Ascii.eqb c "+"%char then int_digits 0 false s'
      else int_digits 0 false (String c s')
  | EmptyString => None
  end.

Definition digit_char (d : Z) : ascii := ascii_of_N (Z.to_N (48 + d)).

Fixpoint pos_digits (fuel : nat) (n : Z) (acc : string) : string :=
  match fuel with
  | O => acc
  | S fuel' =>
      let acc' := String (digit_char (n mod 10)) acc in
      if n / 10 =? 0 then acc' else pos_digits fuel' (n / 10) acc'
  end.

(** [str(n)] for [n >= 0]. *)
Definition decimal (n : Z) : string :=
  pos_digits (S (Z.to_nat (Z.log2 n))) n EmptyString.

Fixpoint zeros (n : nat) : string :=
  match n with
  | O => EmptyString
  | S n' => String "0"%char (zeros n')
  end.

(** [f"{n:02d}"]: the sign, then the digits padded with zeros to a total
    width of two. *)
Definition format_02d (n : Z) : string :=
  let sign := if n <? 0 then String "-"%char EmptyString else EmptyString in
  let digs := decimal (Z.abs n) in
  (sign ++ zeros (2 - String.length sign - String.length digs) ++ digs)%string.

(** [s.startswith(p)] *)
Fixpoint startswith (s p : string) : bool :=
  match p, s with
  | EmptyString, _ => true
  | String a p', String b s' => Ascii.eqb a b && startswith s' p'
  | String _ _, EmptyString => false
  end.

(** [s.find(sub)]: the lowest index at which [sub] starts, or [-1]. *)
Fixpoint find_sub (sub s : string) : Z :=
  if startswith s sub then 0
  else match s with
       | EmptyString => -1
       | String _ s' => let r := find_sub sub s' in if r <? 0 then -1 else r + 1
       end.

(** [sub in s] *)
Definition contains_sub (sub s : string) : bool := 0 <=? find_sub sub s.

(** [s.split(sep, 1)]: at most one split, at the first separator. *)
Definition split_once (sep s : string) : list string :=
  let i := find_sub sep s in
  if i <? 0 then [s] else [slice s 0 i; slice_from s (i + len sep)].

(** [s.endswith(suffix)] *)
Definition endswith (s suffix : string) : bool :=
  (String.length suffix <=? String.length s)%nat
  && startswith (drop (String.length s - String.length suffix) s) suffix.

(** [s.lower()] on ASCII: the capital letters are moved to the small ones. *)
Definition lower_char (c : ascii) : ascii :=
  if (65 <=? ord c) && (ord c <=? 90) then ascii_of_N (Z.to_N (ord c + 32)) else c.

Fixpoint lower (s : string) : string :=
  match s with
  | EmptyString => EmptyString
  | String c s' => String (lower_char c) (lower s')
  end.

(** [s.replace(old, new)] for a one-character [old]. *)
Fixpoint replace_char (old : ascii) (new : string) (s : string) : string :=
  match s with
  | EmptyString => EmptyString
  | String c s' =>
      if Ascii.eqb c old then (new ++ replace_char old new s')%string
      else String c (replace_char old new s')
  end.

(** [str(n)] *)
Definition str_of_int (n : Z) : string :=
  if n <? 0 then String "-"%char (decimal (- n)) else decimal n.

End PyStr.

(** Exceptions: [None] stands for a raised exception, and [x <- e ;; k]
    runs [k] unless [e] raised. *)
Notation "x <- e ;; k" :=
  (match e with Some x => k | None => None end)
  (at level 61, e at next level, right associativity, only parsing).

(** ** The player's lyrics: [KaraokePlayer.load_lyrics] *)

Module Lyrics.

Import PyStr.

(** One entry of [self.lyrics]: the dictionary with keys ['time'], ['text']
    and ['timestamp']. *)
Record lyric := mkLyric {
  time : PyFloat.float;
  text : string;
  timestamp : string
}.

(** [minutes * 60 + seconds + centiseconds / 100.0]: the left operand of
    each float operation is an [int], converted first. *)
Definition total_seconds (minutes seconds centiseconds : Z) : option PyFloat.float :=
  c <- PyFloat.of_int centiseconds ;;
  w <- PyFloat.of_int (minutes * 60 + seconds) ;;
  Some (PyFloat.add w (PyFloat.div c PyFloat.hundred)).

(** The body of the [try] block: an [IndexError] on [parts[1]] and a
    [ValueError] of [int] are [None]. *)
Definition parse_time (timestamp : string) : option PyFloat.float :=
  let parts := split ":" timestamp in
  p0 <- nth_error parts 0 ;;
  minutes <- int_of_str p0 ;;
  p1 <- nth_error parts 1 ;;
  let sec_parts := split "." p1 in
  s0 <- nth_error sec_parts 0 ;;
  seconds <- int_of_str s0 ;;
  centiseconds <-
    (if (1 <? Z.of_nat (List.length sec_parts))
     then (s1 <- nth_error sec_parts 1 ;; int_of_str s1)
     else Some 0) ;;
  total_seconds minutes seconds centiseconds.

(** One iteration of the loop over the file's lines: the entry appended to
    [self.lyrics], or [None] when the line is skipped. *)
Definition parse_line (line : string) : option lyric :=
  let line := strip line in
  if is_empty line || negb (contains "]" line) then None
  else
    let bracket_pos := find "]" line in
    let timestamp := slice line 1 bracket_pos in
    let text := strip (slice_from line (bracket_pos + 1)) in
    if is_empty text then None
    else
      match parse_time timestamp with
      | Some total => Some (mkLyric total text timestamp)
      | None => None
      end.

(** The loop [for line in lines], appending to [self.lyrics]. *)
Definition parse_lines (lyrics : list lyric) (lines : list string) : list lyric :=
  fold_left
    (fun acc line =>
       match parse_line line with
       | Some l => acc ++ [l]
       | None => acc
       end)
    lines lyrics.

(** [self.lyrics.sort(key=lambda x: x['time'])]: the built-in sort is
    stable and compares the keys with [<] only. [insert x l] puts [x] in
    front of the first entry whose key is not smaller than the key of [x]. *)
Fixpoint insert (x : lyric) (l : list lyric) : list lyric :=
  match l with
  | [] => [x]
  | y :: l' =>
      if PyFloat.ltb (time y) (time x) then y :: insert x l' else x :: l
  end.

Fixpoint sort (l : list lyric) : list lyric :=
  match l with
  | [] => []
  | x :: l' => insert x (sort l')
  end.

(** [KaraokePlayer.format_time] *)
Definition format_time (seconds : PyFloat.float) : option string :=
  q <- PyFloat.floordiv seconds PyFloat.sixty ;;
  mins <- PyFloat.to_int q ;;
  r <- PyFloat.rem seconds PyFloat.sixty ;;
  secs <- PyFloat.to_int r ;;
  Some (format_02d mins ++ ":" ++ format_02d secs)%string.

(** How a call ends: with a returned value, or with an exception that
    escapes it. *)
Inductive outcome (A : Type) : Type :=
  | Returned (a : A)
  | Raised.
Arguments Returned {A} a.
Arguments Raised {A}.

(** [self.lyrics[-1]] *)
Definition last_lyric (lyrics : list lyric) : option lyric :=
  nth_error lyrics (List.length lyrics - 1).

(** What [open(self.lyrics_file, 'r', encoding='utf-8')] and [readlines]
    give: the file does not exist ([FileNotFoundError]); opening or reading
    it raises another exception (a file that is not UTF-8, a directory, a
    file that may not be read); or the text of the file. *)
Inductive lyrics_file : Type :=
  | Missing
  | Unreadable
  | Content (content : string).

(** [load_lyrics] on a fresh player ([self.lyrics = []]). The result is how
    the call ends and [self.lyrics] after it. [FileNotFoundError] is the
    only exception of reading that is caught: any other one escapes the
    call, with [self.lyrics] still empty. In [main.py] a player without a
    file name returns [False] before anything is opened, as for a file
    that does not exist. The duration is computed and printed only on the
    path that returns [True]. *)
Definition load_lyrics (file : lyrics_file) : outcome bool * list lyric :=
  match file with
  | Missing => (Returned false, [])
  | Unreadable => (Raised, [])
  | Content content =>
      let lyrics := parse_lines [] (readlines content) in
      match lyrics with
      | [] => (Returned false, lyrics)
      | _ :: _ =>
          let lyrics := sort lyrics in
          match last_lyric lyrics with
          | None => (Raised, lyrics)
          | Some l =>
              let total_duration := time l in
              match format_time total_duration with
              | Some _ => (Returned true, lyrics)
              | None => (Raised, lyrics)
              end
          end
      end
  end.

End Lyrics.

(** ** The playback loop: [KaraokePlayer.play] *)

Module Player.

Import Lyrics.

(** [l[lo:hi]] on a list, with the bounds adjusted as for strings. *)
Definition list_slice {A : Type} (l : list A) (lo hi : Z) : list A :=
  let n := Z.of_nat (List.length l) in
  let a := PyStr.clip n lo in
  let b := PyStr.clip n hi in
  firstn (Z.to_nat (b - a)) (skipn (Z.to_nat a) l).

(** [x / y] on floats: [ZeroDivisionError] on a zero divisor. *)
Definition truediv (x y : PyFloat.float) : option PyFloat.float :=
  if PyFloat.eqb y PyFloat.zero then None else Some (PyFloat.div x y).

(** The local variables of the loop. [last_update_time] starts as the
    integer [0], which the first subtraction converts to the float zero. *)
Record loop_state := mkState {
  displayed_lines : list string;
  current_line_index : nat;
  last_update_time : PyFloat.float
}.

Definition initial_state : loop_state := mkState [] 0 PyFloat.zero.

(** What one screen update shows. *)
Record frame := mkFrame {
  elapsed : PyFloat.float;
  is_new_line : bool;
  previous_lines : list string;
  current_line : option string;
  upcoming : option (string * PyFloat.float);
  progress : PyFloat.float;
  filled : Z;
  time_label : string;
  total_label : string;
  lines_shown : nat;
  total_lines : nat
}.

(** "Check if we need to display the next lyric": the flag [should_update]
    and the state after the check. *)
Definition advance (lyrics : list lyric) (st : loop_state)
    (current_time : PyFloat.float) : bool * loop_state :=
  if (current_line_index st <? List.length lyrics)%nat then
    match nth_error lyrics (current_line_index st) with
    | Some next_lyric =>
        if PyFloat.geb current_time (time next_lyric)
        then (true,
              mkState (displayed_lines st ++ [text next_lyric])
                      (current_line_index st + 1)
                      (last_update_time st))
        else (false, st)
    | None => (false, st)
    end
  else (false, st).

(** "Show previous lines (dimmed) - last 3 lines". *)
Definition shown_previous (should_update : bool) (displayed : list string) : list string :=
  match displayed with
  | [] => []
  | _ :: _ =>
      let n := Z.of_nat (List.length displayed) in
      let num_prev := if should_update then Z.min 3 (n - 1) else Z.min 3 n in
      let start_idx := Z.max 0 (n - num_prev - (if should_update then 1 else 0)) in
      list_slice displayed start_idx (n - (if should_update then 1 else 0))
  end.

(** "Show next line preview (if available)". *)
Definition preview (lyrics : list lyric) (st : loop_state)
    (current_time : PyFloat.float) : option (string * PyFloat.float) :=
  if (current_line_index st <? List.length lyrics)%nat then
    match nth_error lyrics (current_line_index st) with
    | Some next_line =>
        let time_until_next := PyFloat.sub (time next_line) current_time in
        if PyFloat.gtb time_until_next PyFloat.zero
           && PyFloat.ltb time_until_next PyFloat.ten
        then Some (text next_line, time_until_next)
        else None
    | None => None
    end
  else None.

(** The screen update, from the state after the check. The progress bar
    and the two clock labels can raise. *)
Definition render (lyrics : list lyric) (should_update : bool) (st : loop_state)
    (current_time : PyFloat.float) : option frame :=
  let displayed := displayed_lines st in
  last <- last_lyric lyrics ;;
  let total_duration := PyFloat.add (time last) PyFloat.ten in
  ratio <- truediv current_time total_duration ;;
  let progress := PyFloat.min ratio PyFloat.one in
  filled <- PyFloat.to_int (PyFloat.mul PyFloat.fifty progress) ;;
  now_label <- format_time current_time ;;
  end_label <- format_time total_duration ;;
  Some (mkFrame current_time should_update
          (shown_previous should_update displayed)
          (List.last (map Some displayed) None)
          (preview lyrics st current_time)
          progress filled now_label end_label
          (List.length displayed) (List.length lyrics)).

(** One iteration of [while True] in which the music is still playing:
    the next state and the frame shown, if any. *)
Definition tick (lyrics : list lyric) (st : loop_state)
    (current_time : PyFloat.float) : option (loop_state * option frame) :=
  let '(should_update, st1) := advance lyrics st current_time in
  if should_update
     || PyFloat.geb (PyFloat.sub current_time (last_update_time st1)) PyFloat.half
  then
    f <- render lyrics should_update st1 current_time ;;
    Some (mkState (displayed_lines st1) (current_line_index st1) current_time,
          Some f)
  else Some (st1, None).

(** What the audio subsystem and the clock answer in one iteration:
    [get_busy()] is false, or it is true and the clock is read. *)
Inductive poll :=
  | Idle
  | Busy (current_time : PyFloat.float).

(** What a session shows. *)
Inductive event :=
  | NoLyricsLoaded
  | AudioStarted
  | AudioOnlyBanner
  | Frame (f : frame)
  | Finished (summary_lines : option nat)
  | Crashed.

(** The karaoke loop, the same text in [main.py] and in
    [karaoke_universal.py], over the answers of the environment up to the
    first [Idle] one: the frames shown, the state the loop is left in, and
    whether the loop was left. A list of answers without [Idle] leaves the
    loop running; an exception of the screen update ends the session. The
    sleeps and the final screen's own reading of the clock are not part of
    the model. *)
Fixpoint karaoke_loop (lyrics : list lyric) (st : loop_state)
    (polls : list poll) : list event * loop_state * bool :=
  match polls with
  | [] => ([], st, false)
  | Idle :: _ => ([], st, true)
  | Busy current_time :: polls' =>
      match tick lyrics st current_time with
      | None => ([Crashed], st, false)
      | Some (st', shown) =>
          let '(evs, final, exited) := karaoke_loop lyrics st' polls' in
          (match shown with Some f => Frame f :: evs | None => evs end,
           final, exited)
      end
  end.

(** "Just wait for music to finish". *)
Fixpoint audio_only_loop (polls : list poll) : bool :=
  match polls with
  | [] => false
  | Idle :: _ => true
  | Busy _ :: polls' => audio_only_loop polls'
  end.

(** [play] of [karaoke_universal.py]. *)
Definition play_universal (lyrics : list lyric) (polls : list poll) : list event :=
  match lyrics with
  | [] => [NoLyricsLoaded]
  | _ :: _ =>
      let '(evs, _, exited) := karaoke_loop lyrics initial_state polls in
      AudioStarted :: evs
        ++ (if exited then [Finished (Some (List.length lyrics))] else [])
  end.

(** [play] of [main.py]. *)
Definition play_main (lyrics : list lyric) (polls : list poll) : list event :=
  match lyrics with
  | [] =>
      AudioStarted :: AudioOnlyBanner
        :: (if audio_only_loop polls then [Finished None] else [])
  | _ :: _ =>
      let '(evs, _, exited) := karaoke_loop lyrics initial_state polls in
      AudioStarted :: evs
        ++ (if exited then [Finished (Some (List.length lyrics))] else [])
  end.

End Player.

(** ** The timing adjuster: [support/adjust_timing.py] *)

Module AdjustTiming.

Import PyStr.

(** [parse_timestamp]: [None] is the value returned from the [except]
    branch. The sum is the expression of the player's parser. *)
Definition parse_timestamp (timestamp : string) : option PyFloat.float :=
  let parts := split ":" timestamp in
  p0 <- nth_error parts 0 ;;
  minutes <- int_of_str p0 ;;
  p1 <- nth_error parts 1 ;;
  if contains "." p1 then
    let sec_parts := split "." p1 in
    s0 <- nth_error sec_parts 0 ;;
    seconds <- int_of_str s0 ;;
    s1 <- nth_error sec_parts 1 ;;
    centiseconds <- int_of_str s1 ;;
    Lyrics.total_seconds minutes seconds centiseconds
  else
    seconds <- int_of_str p1 ;;
    Lyrics.total_seconds minutes seconds 0.

(** [f"{minutes:02d}:{secs:02d}.{centiseconds:02d}"] *)
Definition stamp (minutes secs centiseconds : Z) : string :=
  (format_02d minutes ++ ":" ++ format_02d secs ++ "." ++ format_02d centiseconds)%string.

(** The body of [format_timestamp] when [seconds] is an [int]: [//] and [%]
    are the integer operations and [int] is the identity. *)
Definition format_int_seconds (seconds : Z) : string :=
  let minutes := seconds / 60 in
  let remaining_seconds := seconds mod 60 in
  let secs := remaining_seconds in
  let centiseconds := (remaining_seconds - secs) * 100 in
  stamp minutes secs centiseconds.

(** The body of [format_timestamp] when [seconds] is a [float]. *)
Definition format_float_seconds (seconds : PyFloat.float) : option string :=
  q <- PyFloat.floordiv seconds PyFloat.sixty ;;
  minutes <- PyFloat.to_int q ;;
  remaining_seconds <- PyFloat.rem seconds PyFloat.sixty ;;
  secs <- PyFloat.to_int remaining_seconds ;;
  secs_float <- PyFloat.of_int secs ;;
  centiseconds <-
    PyFloat.to_int
      (PyFloat.mul (PyFloat.sub remaining_seconds secs_float) PyFloat.hundred) ;;
  Some (stamp minutes secs centiseconds).

(** [format_timestamp]: a negative argument is replaced by the integer [0]. *)
Definition format_timestamp (seconds : PyFloat.float) : option string :=
  if PyFloat.ltb seconds PyFloat.zero
  then Some (format_int_seconds 0)
  else format_float_seconds seconds.

(** One iteration of the loop of [adjust_lrc_timing]: the line appended to
    [adjusted_lines], and whether a timestamp was adjusted. *)
Definition adjust_line (offset_seconds : PyFloat.float) (line : string)
    : option (string * bool) :=
  let line := rstrip_newlines line in
  if negb (is_empty line) && contains "[" line && contains "]" line then
    let bracket_start := find "[" line in
    let bracket_end := find "]" line in
    if (0 <=? bracket_start) && (bracket_start <? bracket_end) then
      let timestamp := slice line (bracket_start + 1) bracket_end in
      let text := slice_from line (bracket_end + 1) in
      match parse_timestamp timestamp with
      | Some time_seconds =>
          let new_time := PyFloat.add time_seconds offset_seconds in
          new_timestamp <- format_timestamp new_time ;;
          Some (("[" ++ new_timestamp ++ "]" ++ text)%string, true)
      | None => Some (line, false)
      end
    else Some (line, false)
  else Some (line, false).

Fixpoint adjust_lines (offset_seconds : PyFloat.float) (lines : list string)
    : option (list string * Z) :=
  match lines with
  | [] => Some ([], 0)
  | line :: lines' =>
      r <- adjust_line offset_seconds line ;;
      rest <- adjust_lines offset_seconds lines' ;;
      Some (fst r :: fst rest, (if snd r then 1 else 0) + snd rest)
  end.

(** [adjust_lrc_timing]: the returned flag and the content written to the
    output file, if it is written. An exception inside the [try] block is
    caught and nothing is written. *)
Definition adjust_lrc_timing (input : option string) (offset_seconds : PyFloat.float)
    : bool * option string :=
  match input with
  | None => (false, None)
  | Some content =>
      match adjust_lines offset_seconds (readlines content) with
      | Some (adjusted_lines, _) =>
          (true, Some (join (String LF EmptyString) adjusted_lines))
      | None => (false, None)
      end
  end.

(** The (time, text) pair that the adjuster reads from a line that it
    adjusts. *)
Definition timed_line (line : string) : option (PyFloat.float * string) :=
  let line := rstrip_newlines line in
  if negb (is_empty line) && contains "[" line && contains "]" line then
    let bracket_start := find "[" line in
    let bracket_end := find "]" line in
    if (0 <=? bracket_start) && (bracket_start <? bracket_end) then
      t <- parse_timestamp (slice line (bracket_start + 1) bracket_end) ;;
      Some (t, slice_from line (bracket_end + 1))
    else None
  else None.

Fixpoint timed_pairs_of (lines : list string) : list (PyFloat.float * string) :=
  match lines with
  | [] => []
  | line :: lines' =>
      match timed_line line with
      | Some p => p :: timed_pairs_of lines'
      | None => timed_pairs_of lines'
      end
  end.

Definition timed_pairs (content : string) : list (PyFloat.float * string) :=
  timed_pairs_of (readlines content).

(** Two times agree up to a tolerance: [abs(a - b) <= tol]. *)
Definition close_to (tol a b : PyFloat.float) : bool :=
  PyFloat.leb (SFabs (PyFloat.sub a b)) tol.

(** [1e-6] *)
Definition micro : PyFloat.float :=
  Eval vm_compute in PyFloat.div (PyFloat.of_Z 1) (PyFloat.of_Z 1000000).

Fixpoint same_pairs (tol : PyFloat.float) (p q : list (PyFloat.float * string)) : bool :=
  match p, q with
  | [], [] => true
  | (t, x) :: p', (u, y) :: q' =>
      close_to tol t u && String.eqb x y && same_pairs tol p' q'
  | _, _ => false
  end.

End AdjustTiming.

(** ** Notions in which the properties are stated *)

Module Props.

Import PyStr Lyrics.

Definition is_nan (x : PyFloat.float) : bool :=
  match x with S754_nan => true | _ => false end.

(** Neither NaN nor an infinity. *)
Definition is_finite (x : PyFloat.float) : bool :=
  match x with S754_zero _ | S754_finite _ _ _ => true | _ => false end.


(** A rounded result that carries the sign [s]; in particular not NaN. *)
Definition signed (s : bool) (x : PyFloat.float) : Prop :=
  match x with
  | S754_zero s' | S754_infinity s' | S754_finite s' _ _ => s' = s
  | S754_nan => False
  end.

(** The timestamp grammar [<int>:<int>] with an optional [.<int>], as the
    fields are cut out: [minutes] is the text before the first colon,
    the seconds and centiseconds are the first two dot-separated fields
    of the text between the first and the second colon, and what follows a
    second colon or a second dot is not looked at. *)
Inductive timestamp_fields (ts : string) : Z -> Z -> Z -> Prop :=
  | fields_with_centiseconds :
      forall mstr secstr more sstr cstr more' m s c,
        split ":" ts = mstr :: secstr :: more ->
        split "." secstr = sstr :: cstr :: more' ->
        int_of_str mstr = Some m ->
        int_of_str sstr = Some s ->
        int_of_str cstr = Some c ->
        timestamp_fields ts m s c
  | fields_without_centiseconds :
      forall mstr secstr more sstr m s,
        split ":" ts = mstr :: secstr :: more ->
        split "." secstr = [sstr] ->
        int_of_str mstr = Some m ->
        int_of_str sstr = Some s ->
        timestamp_fields ts m s 0.

(** [minutes*60 + seconds + centiseconds/100.0] in float arithmetic. *)
Definition seconds_value (m s c : Z) : PyFloat.float :=
  PyFloat.add (PyFloat.of_Z (m * 60 + s)) (PyFloat.div (PyFloat.of_Z c) PyFloat.hundred).

(** [lines[i].time <= lines[i+1].time] *)
Definition time_le (a b : lyric) : Prop := PyFloat.leb (time a) (time b) = true.

(** The entries whose time equals [t]. *)
Definition at_time (t : PyFloat.float) (l : list lyric) : list lyric :=
  filter (fun x => PyFloat.eqb (time x) t) l.

(** The last [n] elements of a list. *)
Definition lastn {A : Type} (n : nat) (l : list A) : list A :=
  skipn (List.length l - n) l.

(** The entry a kept line contributes, as a list. *)
Definition kept (line : string) : list lyric :=
  match parse_line line with
  | Some l => [l]
  | None => []
  end.

(** What a session shows, frame by frame: a frame for a new line with that
    line, or a periodic refresh with the line that stays current; each with
    the clock and the counters [Line shown/total]. *)
Inductive observation :=
  | NewLine (t : PyFloat.float) (line : option string) (shown total : nat)
  | Refresh (t : PyFloat.float) (current : option string) (shown total : nat)
  | Other (e : Player.event).

Definition observe (e : Player.event) : observation :=
  match e with
  | Player.Frame f =>
      if Player.is_new_line f
      then NewLine (Player.elapsed f) (Player.current_line f)
                   (Player.lines_shown f) (Player.total_lines f)
      else Refresh (Player.elapsed f) (Player.current_line f)
                   (Player.lines_shown f) (Player.total_lines f)
  | _ => Other e
  end.

Definition is_frame (e : Player.event) : bool :=
  match e with Player.Frame _ => true | _ => false end.

(** The scenario of the specification: three lines, and a clock that reads
    0, 1, 2, 3 and 4 seconds while the music plays, after which the music
    has stopped. *)
Definition scenario_text : string :=
  join (String LF EmptyString) ["[00:00.00]a"; "[00:01.00]b"; "[00:03.00]c"]%string.

Definition scenario_lyrics : list lyric := snd (load_lyrics (Content scenario_text)).

(** A backlog: two lines a centisecond apart. *)
Definition backlog_lyrics : list lyric :=
  flat_map kept ["[00:01.00]one"; "[00:01.01]two"]%string.

Definition scenario_polls : list Player.poll :=
  map (fun z => Player.Busy (PyFloat.of_Z z)) [0; 1; 2; 3; 4] ++ [Player.Idle].

End Props.

(** ** Notions for whole runs of the loop *)

Module RunProps.

Import Lyrics Player.

(** The frames among the events of a session, in order. *)
Definition frames_of (evs : list event) : list frame :=
  flat_map (fun e => match e with Frame f => [f] | _ => [] end) evs.

Definition crashed (evs : list event) : bool :=
  existsb (fun e => match e with Crashed => true | _ => false end) evs.

(** The history is the texts of the lines before the cursor, and the
    cursor is inside the timeline or at its end. *)
Definition history_ok (lyrics : list lyric) (st : loop_state) : Prop :=
  displayed_lines st = map text (firstn (current_line_index st) lyrics) /\
  (current_line_index st <= List.length lyrics)%nat.

(** The line that a frame with the counter [Line k/n] highlights. *)
Definition line_numbered (lyrics : list lyric) (k : nat) : option string :=
  match k with
  | O => None
  | S i => option_map text (nth_error lyrics i)
  end.

(** What a frame says about the timeline. *)
Definition frame_ok (lyrics : list lyric) (f : frame) : Prop :=
  total_lines f = List.length lyrics /\
  (lines_shown f <= List.length lyrics)%nat /\
  current_line f = line_numbered lyrics (lines_shown f) /\
  (is_new_line f = true ->
   exists l,
     nth_error lyrics (lines_shown f - 1) = Some l /\
     (1 <= lines_shown f)%nat /\
     PyFloat.geb (elapsed f) (time l) = true).

(** The clock has passed the time of every line. *)
Definition all_due (lyrics : list lyric) (t : PyFloat.float) : Prop :=
  Forall (fun l => PyFloat.geb t (time l) = true) lyrics.

End RunProps.

(** ** Notions for the characters of a string *)

Module CharProps.

Import PyStr.

(** Every character of the string passes the test. *)
Fixpoint all_chars (q : ascii -> bool) (s : string) : bool :=
  match s with
  | EmptyString => true
  | String c s' => q c && all_chars q s'
  end.

Definition is_digit (c : ascii) : bool :=
  match digit_val c with
  | Some _ => true
  | None => false
  end.

(** The characters of a number written by [format_02d]. *)
Definition is_number_char (c : ascii) : bool :=
  is_digit c || Ascii.eqb c "-".

End CharProps.

(** ** The song library: [SongLibrary] of [main.py] *)

Module Library.

Import PyStr.

(** [l.sort(key=...)], the stable sort of the interpreter, which compares
    the keys with [<] only: [insert_by] puts an element in front of the
    first one whose key is not smaller than its own. *)
Section Sorting.

Context {A K : Type}.
Variable key : A -> K.
Variable lt : K -> K -> bool.

Fixpoint insert_by (x : A) (l : list A) : list A :=
  match l with
  | [] => [x]
  | y :: l' => if lt (key y) (key x) then y :: insert_by x l' else x :: l
  end.

Fixpoint sort_by (l : list A) : list A :=
  match l with
  | [] => []
  | x :: l' => insert_by x (sort_by l')
  end.

(** [a] may stand in front of [b]: the key of [b] is not smaller. *)
Definition in_order (a b : A) : Prop := lt (key b) (key a) = false.

End Sorting.

(** One entry of [self.songs]. *)
Record song := mkSong {
  mp3_path : string;
  lrc_path : option string;
  filename : string;
  artist : string;
  title : string;
  has_lyrics : bool
}.

(** "Try to extract artist and title from filename". *)
Definition artist_title (mp3_name : string) : string * string :=
  if contains_sub " - " mp3_name then
    match split_once " - " mp3_name with
    | p0 :: p1 :: _ => (strip p0, strip p1)
    | _ => (EmptyString, EmptyString)
    end
  else ("Unknown Artist"%string, mp3_name).

Section Scan.

(** The file system and the path functions of [os.path], as far as
    [scan_songs] uses them. *)
Variable path_exists : string -> bool.
Variable path_join : string -> string -> string.
Variable basename : string -> string.
Variable splitext_root : string -> string.

(** The loop over [possible_lrc], left at the first path that exists. *)
Fixpoint first_existing (possible_lrc : list string) (lrc_path : string) : string :=
  match possible_lrc with
  | [] => lrc_path
  | lrc :: rest => if path_exists lrc then lrc else first_existing rest lrc_path
  end.

(** "Look for matching LRC file in lyrics folder". *)
Definition find_lrc (lyrics_folder mp3_name : string) : string :=
  let lrc_path := path_join lyrics_folder (mp3_name ++ ".lrc") in
  if negb (path_exists lrc_path) then
    let possible_lrc :=
      [ path_join lyrics_folder (mp3_name ++ "_synced.lrc");
        path_join lyrics_folder (mp3_name ++ "_early.lrc");
        path_join lyrics_folder (mp3_name ++ "_adjusted.lrc");
        path_join lyrics_folder (mp3_name ++ "_complete.lrc") ]%string in
    first_existing possible_lrc lrc_path
  else lrc_path.

(** The body of the loop over the MP3 files. *)
Definition scan_one (lyrics_folder mp3_path : string) : song :=
  let mp3_filename := basename mp3_path in
  let mp3_name := splitext_root mp3_filename in
  let lrc_path := find_lrc lyrics_folder mp3_name in
  let has_lyrics := path_exists lrc_path in
  let '(artist, title) := artist_title mp3_name in
  mkSong mp3_path (if has_lyrics then Some lrc_path else None)
         mp3_filename artist title has_lyrics.

(** [scan_songs] on a fresh library; [mp3_files] is what [glob] found.
    The result is the returned flag and [self.songs]. *)
Definition scan_songs (lyrics_folder : string) (mp3_files : list string)
    : bool * list song :=
  match mp3_files with
  | [] => (false, [])
  | _ :: _ =>
      (true,
       sort_by (fun x => lower (title x)) String.ltb
               (map (scan_one lyrics_folder) mp3_files))
  end.

End Scan.

(** [get_song_by_index] *)
Definition get_song_by_index (songs : list song) (index : Z) : option song :=
  if (1 <=? index) && (index <=? Z.of_nat (List.length songs))
  then nth_error songs (Z.to_nat (index - 1))
  else None.

(** The numbers that [display_songs] prints in front of the songs:
    [enumerate(self.songs, 1)]. *)
Fixpoint enumerate (start : Z) (songs : list song) : list (Z * song) :=
  match songs with
  | [] => []
  | s :: rest => (start, s) :: enumerate (start + 1) rest
  end.

Definition display_songs (songs : list song) : list (string * song) :=
  map (fun p => (str_of_int (fst p), snd p)) (enumerate 1 songs).

(** What the menu of [main] does with a line that is typed. *)
Inductive selection :=
  | Quit
  | InvalidInput
  | InvalidChoice
  | Selected (s : song).

Definition choose (songs : list song) (typed : string) : selection :=
  let choice := strip typed in
  if String.eqb (lower choice) "q" then Quit
  else
    match int_of_str choice with
    | None => InvalidInput
    | Some song_index =>
        match get_song_by_index songs song_index with
        | None => InvalidChoice
        | Some s => Selected s
        end
    end.

(** The paths where the lyrics of a song are looked for, in the order of
    preference. *)
Definition lrc_candidates (path_join : string -> string -> string)
    (lyrics_folder mp3_name : string) : list string :=
  map (fun suffix => path_join lyrics_folder (mp3_name ++ suffix)%string)
      [".lrc"; "_synced.lrc"; "_early.lrc"; "_adjusted.lrc"; "_complete.lrc"]%string.

(** The key of the sort of [scan_songs]. *)
Definition title_key (s : song) : string := lower (title s).

End Library.

(** ** File names: the downloaders *)

Module Naming.

Import PyStr.

(** The suggested name of [lyrics/download_lyrics_v2.py], with the
    characters that a file name cannot have replaced or removed. *)
Definition suggested_filename (artist song : string) : string :=
  let suggested := (artist ++ " - " ++ song ++ ".lrc")%string in
  replace_char "|" EmptyString
    (replace_char ">" EmptyString
      (replace_char "<" EmptyString
        (replace_char "034" EmptyString
          (replace_char "?" EmptyString
            (replace_char "*" EmptyString
              (replace_char ":" "-"
                (replace_char "\" "-"
                  (replace_char "/" "-" suggested)))))))).

(** The name the lyrics are saved under: what is typed, or the suggestion
    when nothing is typed, with [.lrc] added unless the name ends with
    it. *)
Definition lrc_filename (typed suggested : string) : string :=
  let filename := strip typed in
  let filename := if is_empty filename then suggested else filename in
  if negb (endswith (lower filename) ".lrc") then (filename ++ ".lrc")%string
  else filename.

(** The custom file name of [songs/download_youtube.py], without the
    [.mp3] that may have been typed. *)
Definition custom_stem (filename : string) : string :=
  if endswith filename ".mp3" then slice filename 0 (-4) else filename.

(** The output template given to the downloader and the file that is
    reported at the end, for the folder, the custom file name if any, and
    the title of the video. An empty file name counts as none. *)
Definition output_names (path_join : string -> string -> string)
    (output_folder : string) (filename : option string) (title : string)
    : string * string :=
  let default := path_join output_folder "%(title)s.%(ext)s"%string in
  match filename with
  | None => (default, path_join output_folder (title ++ ".mp3"))
  | Some filename =>
      if is_empty filename
      then (default, path_join output_folder (title ++ ".mp3"))
      else
        let filename := custom_stem filename in
        (path_join output_folder (filename ++ ".%(ext)s"),
         if is_empty filename
         then path_join output_folder (title ++ ".mp3")
         else path_join output_folder (filename ++ ".mp3"))
  end%string.

(** The characters that the suggestion must not have. *)
Definition forbidden : list ascii :=
  ["/"; "\"; ":"; "*"; "?"; "034"; "<"; ">"; "|"]%char.

End Naming.

(** * Properties *)

(** ** Floats: signs, NaN and the order *)

Module FloatFacts.

Import PyFloat Props.

Lemma shr_1_nonneg mrs : 0 <= shr_m mrs -> 0 <= shr_m (shr_1 mrs).
Proof.
  destruct mrs as [m r s]; simpl; intros H.
  destruct m as [|p|p]; simpl; try lia; destruct p; simpl; lia.
Qed.

Lemma iter_shr_1_nonneg p : forall mrs,
  0 <= shr_m mrs -> 0 <= shr_m (iter_pos shr_1 p mrs).
Proof.
  induction p as [p IH|p IH|]; intros mrs H; simpl.
  - apply IH, IH, shr_1_nonneg, H.
  - apply IH, IH, H.
  - apply shr_1_nonneg, H.
Qed.

Lemma shr_fexp_nonneg m e l :
  0 <= m -> 0 <= shr_m (fst (shr_fexp prec emax m e l)).
Proof.
  intros H. unfold shr_fexp, shr.
  assert (H0 : 0 <= shr_m (shr_record_of_loc m l)).
  { destruct l as [|[]]; simpl; exact H. }
  destruct (fexp prec emax (Zdigits2 m + e) - e); simpl; auto.
  apply iter_shr_1_nonneg, H0.
Qed.

Lemma round_nearest_even_nonneg m l : 0 <= m -> 0 <= round_nearest_even m l.
Proof.
  intros H. destruct l as [|[]]; simpl; try lia.
  destruct (Z.even m); lia.
Qed.

Lemma binary_round_aux_signed sx mx ex lx :
  0 <= mx -> signed sx (binary_round_aux prec emax sx mx ex lx).
Proof.
  intros H. unfold binary_round_aux.
  pose proof (shr_fexp_nonneg mx ex lx H) as H1.
  destruct (shr_fexp prec emax mx ex lx) as [mrs' e']. simpl in H1.
  pose proof (shr_fexp_nonneg _ e' loc_Exact
                (round_nearest_even_nonneg _ (loc_of_shr_record mrs') H1)) as H2.
  destruct (shr_fexp prec emax _ e' loc_Exact) as [mrs'' e'']. simpl in H2.
  destruct (shr_m mrs'') as [|p|p]; simpl; auto; try lia.
  destruct (_ <=? _); simpl; auto.
Qed.

Lemma binary_round_signed sx mx ex : signed sx (binary_round prec emax sx mx ex).
Proof.
  unfold binary_round.
  destruct (shl_align mx ex _) as [mz ez].
  apply binary_round_aux_signed. lia.
Qed.

Lemma binary_normalize_not_nan m e szero :
  is_nan (binary_normalize prec emax m e szero) = false.
Proof.
  destruct m as [|p|p]; simpl; auto.
  - pose proof (binary_round_signed false p e) as H.
    destruct (binary_round prec emax false p e); simpl in *; tauto.
  - pose proof (binary_round_signed true p e) as H.
    destruct (binary_round prec emax true p e); simpl in *; tauto.
Qed.


Lemma of_int_finite z f : of_int z = Some f -> is_finite f = true.
Proof.
  unfold of_int, of_Z. intros H.
  pose proof (binary_normalize_not_nan z 0 false) as Hn.
  destruct (binary_normalize prec emax z 0 false); simpl in *;
    try discriminate; inversion H; subst; reflexivity.
Qed.


Lemma div_core_nonneg mx ex my ey :
  0 <= fst (fst (SFdiv_core_binary prec emax (Zpos mx) ex (Zpos my) ey)).
Proof.
  unfold SFdiv_core_binary.
  set (e' := Z.min _ _). set (s := ex - ey - e').
  set (m' := match s with Z0 => Zpos mx | Zpos _ => Z.shiftl (Zpos mx) s | Zneg _ => 0 end).
  assert (Hm : 0 <= m').
  { unfold m'. destruct s; try lia. apply Z.shiftl_nonneg. lia. }
  pose proof (Z.div_pos m' (Zpos my) Hm ltac:(lia)) as Hq.
  unfold Z.div in Hq.
  destruct (Z.div_eucl m' (Zpos my)) as [q r]. simpl in *. exact Hq.
Qed.

Lemma div_hundred_finite c :
  is_finite c = true -> is_nan (div c hundred) = false.
Proof.
  destruct c as [s| |  |s m e]; simpl; try discriminate; intros _; auto.
  unfold div, hundred, SFdiv.
  pose proof (div_core_nonneg m e 7036874417766400 (-46)) as Hq.
  destruct (SFdiv_core_binary prec emax (Zpos m) e _ _) as [[mz ez] lz].
  simpl in Hq.
  pose proof (binary_round_aux_signed (xorb s false) mz ez lz Hq) as Hs.
  destruct (binary_round_aux prec emax (xorb s false) mz ez lz); simpl in *; tauto.
Qed.


Lemma add_not_nan w x :
  is_finite w = true -> is_nan x = false -> is_nan (add w x) = false.
Proof.
  destruct w as [sw| | |sw mw ew]; simpl; try discriminate; intros _;
    destruct x as [sx|sx| |sx mx ex]; simpl; try discriminate; intros _; auto.
  - destruct sw, sx; reflexivity.
  - apply binary_normalize_not_nan.
Qed.



Lemma compare_antisym x y c :
  SFcompare x y = Some c -> SFcompare y x = Some (CompOpp c).
Proof.
  destruct x as [sx|sx| |sx mx ex], y as [sy|sy| |sy my ey]; simpl;
    intros H; try discriminate; inversion H; subst; clear H;
    try (destruct sx; reflexivity); try (destruct sy; reflexivity);
    try (destruct sx, sy; reflexivity).
  pose proof (Pos.compare_cont_antisym mx my Eq) as A. simpl in A.
  destruct sx, sy; simpl; try reflexivity;
    rewrite (Z.compare_antisym ex ey);
    destruct (ex ?= ey); simpl; try reflexivity;
    rewrite <- A; destruct (Pos.compare_cont Eq mx my); reflexivity.
Qed.

Lemma compare_defined x y :
  is_nan x = false -> is_nan y = false -> exists c, SFcompare x y = Some c.
Proof.
  destruct x, y; simpl; intros; try discriminate; eauto.
Qed.

Lemma ltb_leb x y : ltb x y = true -> leb x y = true.
Proof.
  unfold ltb, leb, SFltb, SFleb. destruct (SFcompare x y) as [[]|]; auto.
Qed.

Lemma not_ltb_leb x y :
  is_nan x = false -> is_nan y = false -> ltb y x = false -> leb x y = true.
Proof.
  intros Hx Hy. unfold ltb, leb, SFltb, SFleb.
  destruct (compare_defined y x Hy Hx) as [c Hc].
  rewrite Hc, (compare_antisym _ _ _ Hc).
  destruct c; simpl; auto.
Qed.

Lemma compare_eq_cases x t :
  SFcompare x t = Some Eq ->
  x = t \/ exists s s', x = S754_zero s /\ t = S754_zero s'.
Proof.
  destruct x as [sx|sx| |sx mx ex], t as [st|st| |st mt et]; simpl;
    intros H; try discriminate; eauto;
    try (destruct sx; discriminate); try (destruct st; discriminate).
  - destruct sx, st; try discriminate; auto.
  - destruct sx, st; try discriminate;
      destruct (ex ?= et) eqn:He; try discriminate;
      apply Z.compare_eq in He; subst;
      inversion H as [Hm].
    + apply CompOpp_iff in Hm. simpl in Hm.
      apply Pos.compare_eq in Hm. subst. auto.
    + apply Pos.compare_eq in Hm. subst. auto.
Qed.

Lemma ltb_irrefl x : ltb x x = false.
Proof.
  unfold ltb, SFltb.
  destruct x as [s|s| |s m e]; simpl; auto; destruct s; auto;
    rewrite Z.compare_refl; fold (Pos.compare m m); rewrite Pos.compare_refl; auto.
Qed.

Lemma eqb_same_not_ltb x y t :
  eqb x t = true -> eqb y t = true -> ltb y x = false.
Proof.
  unfold eqb, SFeqb. intros Hx Hy.
  destruct (SFcompare x t) as [[]|] eqn:Ex; try discriminate.
  destruct (SFcompare y t) as [[]|] eqn:Ey; try discriminate.
  destruct (compare_eq_cases _ _ Ex) as [->|(s & s' & -> & ->)];
    destruct (compare_eq_cases _ _ Ey) as [->|(s1 & s2 & -> & E)].
  - apply ltb_irrefl.
  - subst. reflexivity.
  - inversion Ex. reflexivity.
  - reflexivity.
Qed.

End FloatFacts.

(** ** Strings: searching, slicing and splitting *)

Module StrFacts.
Import PyStr.

Lemma length_append s r : String.length (s ++ r) = (String.length s + String.length r)%nat.
Proof. induction s; simpl; auto. Qed.

Lemma drop_append s r : drop (String.length s) (s ++ r) = r.
Proof. induction s; simpl; auto. Qed.

Lemma take_append s r : take (String.length s) (s ++ r) = s.
Proof. induction s; simpl; [destruct r; reflexivity | f_equal; auto]. Qed.

Lemma take_all s : take (String.length s) s = s.
Proof. induction s; simpl; auto. f_equal; auto. Qed.

Lemma find_first c s r :
  contains c s = false -> find c (s ++ String c r) = len s.
Proof.
  unfold len. induction s as [|a s IH]; simpl; intros H.
  - rewrite Ascii.eqb_refl. reflexivity.
  - apply orb_false_iff in H. destruct H as [Ha Hs]. rewrite Ha.
    rewrite (IH Hs). destruct (Z.of_nat (String.length s) <? 0) eqn:E.
    + apply Z.ltb_lt in E. lia.
    + lia.
Qed.

Lemma contains_append c s r : contains c (s ++ r) = contains c s || contains c r.
Proof. induction s; simpl; auto. rewrite IHs. apply orb_assoc. Qed.

Lemma contains_first c s :
  contains c s = true ->
  exists pre post, s = (pre ++ String c post)%string /\ contains c pre = false.
Proof.
  induction s as [|a s IH]; simpl; intros H; try discriminate.
  destruct (Ascii.eqb a c) eqn:E.
  - apply Ascii.eqb_eq in E. subst. exists EmptyString, s. auto.
  - simpl in H. destruct (IH H) as (pre & post & -> & Hp).
    exists (String a pre), post. simpl. rewrite E, Hp. auto.
Qed.

Lemma contains_lstrip p c s :
  p c = false -> contains c (lstrip_by p s) = contains c s.
Proof.
  intros Hc. induction s as [|a s IH]; simpl; auto.
  destruct (p a) eqn:E; simpl; auto.
  rewrite IH. destruct (Ascii.eqb a c) eqn:Ea; auto.
  apply Ascii.eqb_eq in Ea. congruence.
Qed.

Lemma contains_rstrip p c s :
  p c = false -> contains c (rstrip_by p s) = contains c s.
Proof.
  intros Hc. induction s as [|a s IH]; simpl; auto.
  destruct (rstrip_by p s) as [|b r] eqn:E.
  - simpl in IH. rewrite <- IH.
    destruct (p a) eqn:Ea; simpl; auto.
    destruct (Ascii.eqb a c) eqn:Eac; auto.
    apply Ascii.eqb_eq in Eac. congruence.
  - simpl. simpl in IH. rewrite IH. reflexivity.
Qed.

Lemma contains_strip c s : isspace c = false -> contains c (strip s) = contains c s.
Proof.
  intros H. unfold strip. rewrite contains_rstrip, contains_lstrip; auto.
Qed.

(** Slices of a line [c0 ts ] rest]. *)
Lemma slice_timestamp c0 ts b rest :
  slice (String c0 (ts ++ String b rest)) 1 (1 + len ts) = ts.
Proof.
  unfold slice, clip, len. simpl String.length. rewrite length_append. simpl String.length.
  assert (H1 : (1 <? 0) = false) by reflexivity. rewrite H1.
  assert (H2 : (1 + Z.of_nat (String.length ts) <? 0) = false) by (apply Z.ltb_ge; lia).
  rewrite H2.
  rewrite Z.min_l by lia. rewrite Z.min_l by lia.
  replace (1 + Z.of_nat (String.length ts) - 1) with (Z.of_nat (String.length ts)) by lia.
  rewrite Nat2Z.id. change (Z.to_nat 1) with 1%nat. simpl drop.
  apply take_append.
Qed.

Lemma slice_text c0 ts b rest :
  slice_from (String c0 (ts ++ String b rest)) (1 + len ts + 1) = rest.
Proof.
  unfold slice_from, slice, clip, len. simpl String.length. rewrite length_append. simpl String.length.
  assert (H2 : (1 + Z.of_nat (String.length ts) + 1 <? 0) = false) by (apply Z.ltb_ge; lia).
  rewrite H2.
  assert (H3 : (Z.of_nat (S (String.length ts + S (String.length rest))) <? 0) = false)
    by (apply Z.ltb_ge; lia).
  rewrite H3.
  rewrite !Z.min_l by lia.
  replace (Z.to_nat (1 + Z.of_nat (String.length ts) + 1)) with (S (String.length ts + 1)) by lia.
  simpl drop.
  replace (String.length ts + 1)%nat with (String.length (ts ++ String b EmptyString)).
  2:{ rewrite length_append. reflexivity. }
  replace (ts ++ String b rest)%string with ((ts ++ String b EmptyString) ++ rest)%string.
  2:{ clear. induction ts; simpl; auto. f_equal; auto. }
  rewrite drop_append.
  replace (Z.to_nat _) with (String.length rest) by lia.
  apply take_all.
Qed.

Lemma is_empty_true s : is_empty s = true <-> s = EmptyString.
Proof. destruct s; simpl; split; intros H; auto; discriminate. Qed.

Lemma split_without c s : contains c s = false -> split c s = [s].
Proof.
  induction s as [|a s IH]; simpl; intros H; auto.
  apply orb_false_iff in H. destruct H as [Ha Hs].
  rewrite Ha, (IH Hs). reflexivity.
Qed.

Lemma split_with c s :
  contains c s = true -> exists a b rest, split c s = a :: b :: rest.
Proof.
  induction s as [|a s IH]; simpl; intros H; try discriminate.
  destruct (Ascii.eqb a c) eqn:E.
  - destruct (split c s) as [|h t] eqn:Es; eauto.
    destruct s; simpl in Es; try discriminate.
    destruct (Ascii.eqb a0 c); try discriminate.
    destruct (split c s); discriminate.
  - simpl in H. destruct (IH H) as (x & y & rest & ->). eauto.
Qed.

End StrFacts.

(** ** The parser *)

Module LyricsFacts.
Import PyStr Lyrics Props StrFacts FloatFacts.

Lemma two_fields {A} (a b : A) rest :
  (1 <? Z.of_nat (List.length (a :: b :: rest))) = true.
Proof. apply Z.ltb_lt. simpl List.length. lia. Qed.

Lemma parse_timestamp_parse_time ts :
  AdjustTiming.parse_timestamp ts = parse_time ts.
Proof.
  unfold AdjustTiming.parse_timestamp, parse_time.
  destruct (nth_error (split ":" ts) 0) as [p0|]; auto.
  destruct (int_of_str p0) as [minutes|]; auto.
  destruct (nth_error (split ":" ts) 1) as [p1|]; auto.
  destruct (contains "." p1) eqn:E.
  - destruct (split_with _ _ E) as (a & b & rest & ->).
    rewrite two_fields. simpl.
    destruct (int_of_str a); auto.
  - rewrite (split_without _ _ E). simpl.
    destruct (int_of_str p1); auto.
Qed.

Lemma parse_time_fields ts m s c :
  timestamp_fields ts m s c -> parse_time ts = total_seconds m s c.
Proof.
  intros H. unfold parse_time.
  destruct H as [mstr secstr more sstr cstr more' m s c H1 H2 Hm Hs Hc
                |mstr secstr more sstr m s H1 H2 Hm Hs];
    rewrite H1; cbn [nth_error]; rewrite Hm, H2; cbn [nth_error]; rewrite Hs.
  - rewrite two_fields, Hc. reflexivity.
  - reflexivity.
Qed.

Lemma parse_time_spec ts t :
  parse_time ts = Some t ->
  exists m s c, timestamp_fields ts m s c /\ total_seconds m s c = Some t.
Proof.
  unfold parse_time.
  destruct (split ":" ts) as [|mstr [|secstr more]] eqn:H1;
    cbn [nth_error]; try discriminate.
  - destruct (int_of_str mstr); discriminate.
  - destruct (int_of_str mstr) as [m|] eqn:Hm; try discriminate.
    destruct (split "." secstr) as [|sstr [|cstr more']] eqn:H2;
      cbn [nth_error]; try discriminate.
    + destruct (int_of_str sstr) as [s|] eqn:Hs; try discriminate.
      simpl. intros H. exists m, s, 0. split; auto.
      eapply fields_without_centiseconds; eauto.
    + destruct (int_of_str sstr) as [s|] eqn:Hs; try discriminate.
      rewrite two_fields.
      destruct (int_of_str cstr) as [c|] eqn:Hc; try discriminate.
      intros H. exists m, s, c. split; auto.
      eapply fields_with_centiseconds; eauto.
Qed.

Lemma total_seconds_value m s c t :
  total_seconds m s c = Some t -> t = seconds_value m s c.
Proof.
  unfold total_seconds, seconds_value, PyFloat.of_int.
  destruct (PyFloat.of_Z c); try discriminate;
    destruct (PyFloat.of_Z (m * 60 + s)); try discriminate;
    intros H; inversion H; reflexivity.
Qed.

(** The shape of a line that starts with any character [c0], kept up to the
    first closing bracket. *)
Lemma parse_line_shape line c0 ts rest :
  strip line = String c0 (ts ++ String "]" rest) ->
  c0 <> "]"%char ->
  contains "]" ts = false ->
  parse_line line =
    if is_empty (strip rest) then None
    else match parse_time ts with
         | Some t => Some (mkLyric t (strip rest) ts)
         | None => None
         end.
Proof.
  intros H Hc Hts. unfold parse_line. rewrite H.
  assert (Hc' : Ascii.eqb c0 "]" = false) by (apply Ascii.eqb_neq; exact Hc).
  cbn [is_empty orb].
  assert (E2 : contains "]" (String c0 (ts ++ String "]" rest)) = true).
  { simpl. rewrite contains_append. simpl.
    destruct (Ascii.eqb c0 "]"), (contains "]" ts); reflexivity. }
  rewrite E2. simpl orb. cbv iota.
  assert (E3 : find "]" (String c0 (ts ++ String "]" rest)) = 1 + len ts).
  { cbn [find]. rewrite Hc'. rewrite (find_first _ _ _ Hts). cbv zeta.
    assert (E : (len ts <? 0) = false) by (apply Z.ltb_ge; unfold len; lia).
    rewrite E. lia. }
  rewrite E3. rewrite slice_timestamp, slice_text. reflexivity.
Qed.


Lemma parse_line_time line l :
  parse_line line = Some l -> parse_time (timestamp l) = Some (time l).
Proof.
  unfold parse_line.
  destruct (_ || _); try discriminate.
  destruct (is_empty _); try discriminate.
  destruct (parse_time _) eqn:E; try discriminate.
  intros H. inversion H. subst. exact E.
Qed.

Lemma total_seconds_not_nan m s c t :
  total_seconds m s c = Some t -> is_nan t = false.
Proof.
  unfold total_seconds.
  destruct (PyFloat.of_int c) as [cf|] eqn:Ec; try discriminate.
  destruct (PyFloat.of_int (m * 60 + s)) as [w|] eqn:Ew; try discriminate.
  intros H. inversion H. subst.
  apply add_not_nan.
  - eapply of_int_finite; eauto.
  - apply div_hundred_finite. eapply of_int_finite; eauto.
Qed.


Lemma parse_line_not_nan line l :
  parse_line line = Some l -> is_nan (time l) = false.
Proof.
  intros H. apply parse_line_time in H.
  destruct (parse_time_spec _ _ H) as (m & s & c & _ & Ht).
  eapply total_seconds_not_nan; eauto.
Qed.

(** The loop over the lines keeps, in order, the entries of the lines that
    are not skipped. *)
Lemma parse_lines_kept lines : forall lyrics,
  parse_lines lyrics lines = lyrics ++ flat_map kept lines.
Proof.
  unfold parse_lines, kept.
  induction lines as [|line lines IH]; intros lyrics; simpl.
  - symmetry. apply app_nil_r.
  - rewrite IH. destruct (parse_line line); simpl; auto.
    rewrite <- app_assoc. reflexivity.
Qed.

Lemma parse_lines_not_nan lines :
  Forall (fun l => is_nan (time l) = false) (parse_lines [] lines).
Proof.
  rewrite parse_lines_kept. simpl.
  induction lines as [|line lines IH]; simpl; auto.
  apply Forall_app. split; auto.
  unfold kept. destruct (parse_line line) eqn:E; auto.
  constructor; auto. eapply parse_line_not_nan; eauto.
Qed.

(** *** The sort *)

Lemma insert_perm x l : Permutation (x :: l) (insert x l).
Proof.
  induction l as [|y l IH]; simpl; auto.
  destruct (PyFloat.ltb (time y) (time x)); auto.
  eapply perm_trans; [apply perm_swap|]. auto.
Qed.

Lemma sort_perm l : Permutation l (sort l).
Proof.
  induction l as [|x l IH]; simpl; auto.
  eapply perm_trans; [|apply insert_perm]. auto.
Qed.

Lemma insert_hdrel a x l :
  time_le a x -> HdRel time_le a l -> HdRel time_le a (insert x l).
Proof.
  intros Hax H. destruct l as [|y l]; simpl; auto.
  inversion H; subst.
  destruct (PyFloat.ltb (time y) (time x)); auto.
Qed.

Lemma insert_sorted x l :
  is_nan (time x) = false ->
  Forall (fun y => is_nan (time y) = false) l ->
  Sorted time_le l -> Sorted time_le (insert x l).
Proof.
  intros Hx Hl Hs. induction Hs as [|y l Hs IH Hd]; simpl.
  - auto.
  - inversion Hl; subst.
    destruct (PyFloat.ltb (time y) (time x)) eqn:E.
    + constructor; auto.
      apply insert_hdrel; auto. apply ltb_leb, E.
    + constructor; auto. constructor.
      apply not_ltb_leb; auto.
Qed.

Lemma sort_sorted l :
  Forall (fun y => is_nan (time y) = false) l -> Sorted time_le (sort l).
Proof.
  induction l as [|x l IH]; intros H; simpl; auto.
  inversion H; subst.
  apply insert_sorted; auto.
  eapply Permutation_Forall; [apply sort_perm|]. auto.
Qed.

Lemma at_time_insert t x l : at_time t (insert x l) = at_time t (x :: l).
Proof.
  unfold at_time. induction l as [|y l IH]; simpl; auto.
  destruct (PyFloat.ltb (time y) (time x)) eqn:E; simpl; auto.
  rewrite IH. simpl.
  destruct (PyFloat.eqb (time x) t) eqn:Ex, (PyFloat.eqb (time y) t) eqn:Ey; auto.
  rewrite (eqb_same_not_ltb _ _ _ Ex Ey) in E. discriminate.
Qed.

Lemma at_time_sort t l : at_time t (sort l) = at_time t l.
Proof.
  induction l as [|x l IH]; simpl; auto.
  rewrite at_time_insert. unfold at_time in *. simpl. rewrite IH. reflexivity.
Qed.

Lemma sorted_adjacent l :
  Sorted time_le l ->
  forall i a b, nth_error l i = Some a -> nth_error l (S i) = Some b -> time_le a b.
Proof.
  induction 1 as [|x l Hs IH Hd]; intros i a b Ha Hb.
  - destruct i; discriminate.
  - destruct i as [|i]; simpl in *.
    + inversion Ha; subst. destruct l; try discriminate.
      inversion Hb; subst. inversion Hd; auto.
    + eapply IH; eauto.
Qed.

(** [self.lyrics] after [load_lyrics] is the sorted list of the kept
    entries, on every path. *)
Lemma load_lyrics_sorts content :
  snd (load_lyrics (Content content)) = sort (parse_lines [] (readlines content)).
Proof.
  unfold load_lyrics.
  destruct (parse_lines [] (readlines content)) as [|x l]; auto.
  destruct (last_lyric _); auto.
  destruct (format_time _); auto.
Qed.

(** *** The claims about the parser *)

(** The lines whose trimmed form starts with an opening bracket: such a
    line contributes an entry if and only if it has a closing
    bracket, the segment between the leading bracket and the first closing
    bracket has the fields [<int>:<int>] with an optional [.<int>] (read
    by [int], with a total that fits a float), and the text after that
    closing bracket is not empty once trimmed. The entry then carries that
    segment and that trimmed text. [parse_line] is total: a line that
    fails is skipped, nothing is raised. *)
Theorem line_keeping_rule : forall line body,
  strip line = String "[" body ->
  ((exists l, parse_line line = Some l) <->
   (exists ts rest m s c t,
      body = (ts ++ String "]" rest)%string /\
      contains "]" ts = false /\
      timestamp_fields ts m s c /\
      total_seconds m s c = Some t /\
      strip rest <> EmptyString)) /\
  (forall l, parse_line line = Some l ->
     exists ts rest,
       body = (ts ++ String "]" rest)%string /\
       contains "]" ts = false /\
       timestamp l = ts /\ text l = strip rest).
Proof.
  intros line body H.
  assert (Hb : "["%char <> "]"%char) by discriminate.
  assert (shape : forall l, parse_line line = Some l ->
            exists ts rest,
              body = (ts ++ String "]" rest)%string /\
              contains "]" ts = false /\
              timestamp l = ts /\ text l = strip rest /\
              parse_time ts = Some (time l) /\ strip rest <> EmptyString).
  { intros l Hl.
    assert (Hc : contains "]" body = true).
    { revert Hl. unfold parse_line. rewrite H. simpl.
      destruct (contains "]" body); auto. discriminate. }
    destruct (contains_first _ _ Hc) as (ts & rest & -> & Hts).
    rewrite (parse_line_shape _ _ _ _ H Hb Hts) in Hl.
    exists ts, rest.
    destruct (is_empty (strip rest)) eqn:E; try discriminate.
    destruct (parse_time ts) as [t|] eqn:Et; try discriminate.
    inversion Hl; subst; simpl.
    repeat split; auto.
    intros E'. rewrite E' in E. discriminate. }
  split; [split|].
  - intros [l Hl].
    destruct (shape l Hl) as (ts & rest & Hbody & Hts & _ & _ & Ht & Hr).
    destruct (parse_time_spec _ _ Ht) as (m & s & c & Hf & Htot).
    exists ts, rest, m, s, c, (time l). auto.
  - intros (ts & rest & m & s & c & t & -> & Hts & Hf & Htot & Hr).
    rewrite (parse_line_shape _ _ _ _ H Hb Hts).
    rewrite (parse_time_fields _ _ _ _ Hf), Htot.
    destruct (is_empty (strip rest)) eqn:E.
    + apply is_empty_true in E. contradiction.
    + eauto.
  - intros l Hl.
    destruct (shape l Hl) as (ts & rest & Hbody & Hts & Hs & Hx & _).
    exists ts, rest. auto.
Qed.

(** C3, a defect of the code. [load_lyrics] takes the timestamp as
    [line[1:bracket_pos]]: it neither looks for the opening bracket nor at
    the character that it skips, against its own comment ("Skip the [") and
    unlike [adjust_lrc_timing], which tests ['[' in line] and finds the
    bracket. In the file with the two lines [x00:01]hi] and [ab[00:02]yo],
    the first line has no opening bracket, the adjuster leaves it alone,
    and the player keeps it with the time 1.0; the second line has the
    segment [[00:02]], which the adjuster reads as 2.0, and the player
    drops it. *)
Theorem line_keeping_assumes_leading_bracket :
  let content := ("x00:01]hi" ++ String LF "ab[00:02]yo")%string in
  contains "[" "x00:01]hi" = false /\
  parse_line "x00:01]hi" = Some (mkLyric PyFloat.one "hi" "00:01") /\
  AdjustTiming.timed_line "x00:01]hi" = None /\
  contains "[" "ab[00:02]yo" = true /\
  parse_line "ab[00:02]yo" = None /\
  AdjustTiming.timed_line "ab[00:02]yo" = Some (PyFloat.of_Z 2, "yo"%string) /\
  load_lyrics (Content content)
  = (Returned true, [mkLyric PyFloat.one "hi" "00:01"]).
Proof. vm_compute. repeat split; reflexivity. Qed.

(** C4. The time of a kept line is [minutes*60 + seconds +
    centiseconds/100.0] in float arithmetic, for the fields of its
    timestamp, the centiseconds being [0] when the field is absent; the
    adjuster's [parse_timestamp] reads the same value. [[01:02.50]hello]
    has time 62.5 and [[00:00]hi] has time 0.0. *)
Theorem parsed_time_semantics : forall line l,
  parse_line line = Some l ->
  (exists m s c,
     timestamp_fields (timestamp l) m s c /\ time l = seconds_value m s c) /\
  AdjustTiming.parse_timestamp (timestamp l) = Some (time l) /\
  (line = "[01:02.50]hello"%string ->
   time l = PyFloat.div (PyFloat.of_Z 125) (PyFloat.of_Z 2)) /\
  (line = "[00:00]hi"%string -> time l = PyFloat.zero).
Proof.
  intros line l H.
  pose proof (parse_line_time _ _ H) as Ht.
  repeat split.
  - destruct (parse_time_spec _ _ Ht) as (m & s & c & Hf & Htot).
    exists m, s, c. split; auto. apply total_seconds_value, Htot.
  - rewrite parse_timestamp_parse_time. exact Ht.
  - intros ->. vm_compute in H. inversion H. reflexivity.
  - intros ->. vm_compute in H. inversion H. reflexivity.
Qed.

Lemma parsed_time_semantics_witness :
  parse_line "[00:00]hi" = Some (mkLyric PyFloat.zero "hi" "00:00") /\
  (exists m s c,
     timestamp_fields "00:00" m s c /\ PyFloat.zero = seconds_value m s c).
Proof.
  split; [reflexivity|].
  exact (proj1 (parsed_time_semantics "[00:00]hi"
                  (mkLyric PyFloat.zero "hi" "00:00") eq_refl)).
Defined.

(** C5. After [load_lyrics] the entries are in ascending order of time,
    each time at most the next one; entries with equal times are in the
    order of their lines in the file; and the entries are those of the kept
    lines. [play] only reads the list. *)
Theorem lyrics_sorted_stable : forall content,
  let parsed := parse_lines [] (readlines content) in
  let lyrics := snd (load_lyrics (Content content)) in
  (forall i a b,
     nth_error lyrics i = Some a -> nth_error lyrics (S i) = Some b ->
     PyFloat.leb (time a) (time b) = true) /\
  (forall t, at_time t lyrics = at_time t parsed) /\
  Permutation parsed lyrics /\
  parsed = flat_map kept (readlines content).
Proof.
  intros content parsed lyrics. unfold lyrics. rewrite load_lyrics_sorts.
  fold parsed. repeat split.
  - apply sorted_adjacent, sort_sorted. apply parse_lines_not_nan.
  - intros t. apply at_time_sort.
  - apply sort_perm.
  - unfold parsed. rewrite parse_lines_kept. reflexivity.
Qed.



End LyricsFacts.

(** ** The playback loop *)

Module PlayerFacts.

Import Lyrics Player Props.

Lemma advance_cases lyrics st now :
  advance lyrics st now = (false, st) \/
  exists next,
    nth_error lyrics (current_line_index st) = Some next /\
    PyFloat.geb now (time next) = true /\
    advance lyrics st now =
      (true, mkState (displayed_lines st ++ [text next])
                     (current_line_index st + 1) (last_update_time st)).
Proof.
  unfold advance.
  destruct (current_line_index st <? List.length lyrics)%nat; auto.
  destruct (nth_error lyrics (current_line_index st)) as [next|] eqn:E; auto.
  destruct (PyFloat.geb now (time next)) eqn:G; auto.
  right. exists next. auto.
Qed.

(** The history and the cursor after a tick are those after the check. *)
Lemma tick_state lyrics st now st' shown :
  tick lyrics st now = Some (st', shown) ->
  displayed_lines st' = displayed_lines (snd (advance lyrics st now)) /\
  current_line_index st' = current_line_index (snd (advance lyrics st now)).
Proof.
  unfold tick. destruct (advance lyrics st now) as [su st1]. simpl.
  destruct (su || _).
  - destruct (render lyrics su st1 now); try discriminate.
    intros H. inversion H. auto.
  - intros H. inversion H. auto.
Qed.

(** A frame that is shown is rendered from the state after the check. *)
Lemma tick_frame lyrics st now st' f :
  tick lyrics st now = Some (st', Some f) ->
  render lyrics (fst (advance lyrics st now)) (snd (advance lyrics st now)) now = Some f.
Proof.
  unfold tick. destruct (advance lyrics st now) as [su st1]. simpl.
  destruct (su || _).
  - destruct (render lyrics su st1 now); try discriminate.
    intros H. inversion H. auto.
  - intros H. inversion H.
Qed.

Lemma render_fields lyrics su st now f :
  render lyrics su st now = Some f ->
  is_new_line f = su /\
  previous_lines f = shown_previous su (displayed_lines st) /\
  current_line f = List.last (map Some (displayed_lines st)) None /\
  lines_shown f = List.length (displayed_lines st) /\
  total_lines f = List.length lyrics /\
  elapsed f = now.
Proof.
  unfold render.
  destruct (last_lyric lyrics); try discriminate.
  destruct (truediv _ _); try discriminate.
  destruct (PyFloat.to_int _); try discriminate.
  destruct (format_time now); try discriminate.
  destruct (format_time _); try discriminate.
  intros H. inversion H. simpl. repeat split; reflexivity.
Qed.

Lemma removelast_snoc {A} (l : list A) x : removelast (l ++ [x]) = l.
Proof. apply removelast_last. Qed.

Lemma last_some_snoc (l : list string) x :
  List.last (map Some (l ++ [x])) None = Some x.
Proof. rewrite map_app. simpl. apply last_last. Qed.

(** The slice of the history that is shown dimmed: its last three entries,
    the newest one left out on an update. *)
Lemma shown_previous_lastn su displayed :
  shown_previous su displayed =
    lastn 3 (if su then removelast displayed else displayed).
Proof.
  unfold shown_previous, lastn, list_slice, PyStr.clip.
  destruct displayed as [|x l]; [destruct su; reflexivity|].
  set (d := x :: l).
  assert (Hn : (1 <= List.length d)%nat) by (simpl; lia).
  clearbody d. clear x l.
  destruct su.
  - assert (Hr : removelast d = firstn (List.length d - 1) d).
    { clear Hn. induction d as [|a d IH]; auto.
      destruct d as [|b d]; auto.
      change (removelast (a :: b :: d)) with (a :: removelast (b :: d)).
      rewrite IH. simpl. rewrite Nat.sub_0_r. reflexivity. }
    rewrite Hr. rewrite length_firstn.
    rewrite Nat.min_l by lia.
    set (n := List.length d) in *.
    assert (E1 : (Z.max 0 (Z.of_nat n - Z.min 3 (Z.of_nat n - 1) - 1) <? 0) = false)
      by (apply Z.ltb_ge; lia).
    assert (E2 : (Z.of_nat n - 1 <? 0) = false) by (apply Z.ltb_ge; lia).
    rewrite E1, E2.
    rewrite skipn_firstn_comm.
    f_equal; [|f_equal]; lia.
  - set (n := List.length d) in *.
    assert (E1 : (Z.max 0 (Z.of_nat n - Z.min 3 (Z.of_nat n) - 0) <? 0) = false)
      by (apply Z.ltb_ge; lia).
    assert (E2 : (Z.of_nat n - 0 <? 0) = false) by (apply Z.ltb_ge; lia).
    rewrite E1, E2.
    replace (Z.to_nat (Z.min (Z.max 0 (Z.of_nat n - Z.min 3 (Z.of_nat n) - 0)) (Z.of_nat n)))
      with (n - 3)%nat by lia.
    apply firstn_all2. rewrite length_skipn. lia.
Qed.

Lemma lastn_length {A} n (l : list A) : (List.length (lastn n l) <= n)%nat.
Proof. unfold lastn. rewrite length_skipn. lia. Qed.

(** The last entries of a non-empty list end with its last entry. *)
Lemma lastn_snoc {A} n (l : list A) x :
  lastn (S n) (l ++ [x]) = lastn n l ++ [x].
Proof.
  unfold lastn. rewrite length_app. simpl List.length.
  rewrite skipn_app.
  replace (List.length l + 1 - S n)%nat with (List.length l - n)%nat by lia.
  replace (List.length l - n - List.length l)%nat with 0%nat by lia.
  reflexivity.
Qed.

Lemma last_some_inv (l : list string) x :
  List.last (map Some l) None = Some x -> exists l', l = l' ++ [x].
Proof.
  destruct l as [|a l0]; [discriminate|].
  destruct (@exists_last _ (a :: l0)) as (l' & y & E); [discriminate|].
  rewrite E, last_some_snoc. intros H. inversion H. eauto.
Qed.


Lemma advance_due lyrics st now next :
  nth_error lyrics (current_line_index st) = Some next ->
  PyFloat.geb now (time next) = true ->
  advance lyrics st now =
    (true, mkState (displayed_lines st ++ [text next])
                   (current_line_index st + 1) (last_update_time st)).
Proof.
  intros Hn Hg. unfold advance.
  assert (Hlt : (current_line_index st <? List.length lyrics)%nat = true).
  { apply Nat.ltb_lt. apply nth_error_Some. congruence. }
  rewrite Hlt, Hn, Hg. reflexivity.
Qed.

(** *** The claims about the loop *)

(** C1. In one tick at most one line is appended to the history and the
    cursor moves by at most one, whatever the clock reads. When the clock
    has passed the times of the next two lines, the tick surfaces the first
    one only, and the second one surfaces on the next tick. *)
Theorem at_most_one_advance_per_tick : forall lyrics st now st' shown,
  tick lyrics st now = Some (st', shown) ->
  ((displayed_lines st' = displayed_lines st /\
    current_line_index st' = current_line_index st) \/
   (exists next,
      nth_error lyrics (current_line_index st) = Some next /\
      PyFloat.geb now (time next) = true /\
      displayed_lines st' = displayed_lines st ++ [text next] /\
      current_line_index st' = S (current_line_index st))) /\
  (forall first second now2 st2 shown2,
     nth_error lyrics (current_line_index st) = Some first ->
     nth_error lyrics (S (current_line_index st)) = Some second ->
     PyFloat.geb now (time first) = true ->
     PyFloat.geb now (time second) = true ->
     PyFloat.geb now2 (time second) = true ->
     tick lyrics st' now2 = Some (st2, shown2) ->
     displayed_lines st' = displayed_lines st ++ [text first] /\
     displayed_lines st2 = displayed_lines st ++ [text first; text second]).
Proof.
  intros lyrics st now st' shown H.
  destruct (tick_state _ _ _ _ _ H) as [Hd Hi].
  split.
  - destruct (advance_cases lyrics st now) as [E|(next & Hn & Hg & E)];
      rewrite E in Hd, Hi; simpl in Hd, Hi.
    + left. auto.
    + right. exists next. repeat split; auto. lia.
  - intros first second now2 st2 shown2 H1 H2 G1 G2 G3 T2.
    rewrite (advance_due _ _ _ _ H1 G1) in Hd, Hi. simpl in Hd, Hi.
    destruct (tick_state _ _ _ _ _ T2) as [Hd2 Hi2].
    assert (H2' : nth_error lyrics (current_line_index st') = Some second).
    { rewrite Hi. rewrite Nat.add_1_r. exact H2. }
    rewrite (advance_due _ _ _ _ H2' G3) in Hd2. simpl in Hd2.
    split; auto.
    rewrite Hd2, Hd, <- app_assoc. reflexivity.
Qed.

Lemma at_most_one_advance_per_tick_witness :
  exists st' shown,
    tick backlog_lyrics initial_state (PyFloat.of_Z 5) = Some (st', shown) /\
    ((displayed_lines st' = displayed_lines initial_state /\
      current_line_index st' = current_line_index initial_state) \/
     (exists next,
        nth_error backlog_lyrics (current_line_index initial_state) = Some next /\
        PyFloat.geb (PyFloat.of_Z 5) (time next) = true /\
        displayed_lines st' = displayed_lines initial_state ++ [text next] /\
        current_line_index st' = S (current_line_index initial_state))).
Proof.
  destruct (tick backlog_lyrics initial_state (PyFloat.of_Z 5))
    as [[st' shown]|] eqn:H.
  - exists st', shown. split; [reflexivity|].
    exact (proj1 (at_most_one_advance_per_tick _ _ _ _ _ H)).
  - lazy in H. discriminate.
Defined.

(** C8. The dimmed lines of a frame are the last three entries, at most, of
    the history: on a frame for a new line, of the history before that
    line, which is the current line and is left out; on a periodic
    refresh, of the whole history, so that they end with the current
    line. *)
Theorem previous_lines_rule : forall lyrics st now st' f,
  tick lyrics st now = Some (st', Some f) ->
  (List.length (previous_lines f) <= 3)%nat /\
  (is_new_line f = true ->
   exists cur,
     displayed_lines st' = displayed_lines st ++ [cur] /\
     current_line f = Some cur /\
     previous_lines f = lastn 3 (displayed_lines st)) /\
  (is_new_line f = false ->
   displayed_lines st' = displayed_lines st /\
   previous_lines f = lastn 3 (displayed_lines st') /\
   current_line f = List.last (map Some (displayed_lines st')) None /\
   forall cur, current_line f = Some cur ->
     exists older, displayed_lines st' = older ++ [cur] /\
                   previous_lines f = lastn 2 older ++ [cur]).
Proof.
  intros lyrics st now st' f H.
  destruct (tick_state _ _ _ _ _ H) as [Hd _].
  pose proof (tick_frame _ _ _ _ _ H) as Hr.
  apply render_fields in Hr.
  destruct Hr as (Hnew & Hprev & Hcur & _).
  rewrite shown_previous_lastn in Hprev.
  split; [rewrite Hprev; apply lastn_length|].
  destruct (advance_cases lyrics st now) as [E|(next & Hn & Hg & E)];
    rewrite E in *; simpl in *.
  - split; [congruence|]. intros _.
    rewrite Hd. repeat split; auto.
    intros cur Hc. rewrite Hcur in Hc.
    destruct (last_some_inv _ _ Hc) as [older Ho].
    exists older. split; auto.
    rewrite Hprev, Ho. apply lastn_snoc.
  - split; [|congruence]. intros _.
    exists (text next). rewrite Hcur, Hprev, last_some_snoc, removelast_snoc. auto.
Qed.

Lemma previous_lines_rule_witness :
  exists st' f,
    tick scenario_lyrics (mkState ["a"; "b"]%string 2 (PyFloat.of_Z 2)) (PyFloat.of_Z 3)
      = Some (st', Some f) /\
    (List.length (previous_lines f) <= 3)%nat.
Proof.
  destruct (tick scenario_lyrics (mkState ["a"; "b"]%string 2 (PyFloat.of_Z 2))
              (PyFloat.of_Z 3)) as [[st' [f|]]|] eqn:H.
  - exists st', f. split; [reflexivity|].
    exact (proj1 (previous_lines_rule _ _ _ _ _ H)).
  - lazy in H. discriminate.
  - lazy in H. discriminate.
Defined.

(** C2, as corrected. On the scenario the session shows the new line [a]
    at 0 s, the new line [b] at 1 s, a refresh at 2 s, the new line [c] at
    3 s, a refresh at 4 s with the counters at 3 of 3, and it finishes on
    the next poll, when the music has stopped. Both players behave alike. *)
Theorem end_to_end_scenario :
  fst (load_lyrics (Content scenario_text)) = Returned true /\
  map text scenario_lyrics = ["a"; "b"; "c"]%string /\
  map observe (play_universal scenario_lyrics scenario_polls) =
    [ Other AudioStarted;
      NewLine (PyFloat.of_Z 0) (Some "a"%string) 1 3;
      NewLine (PyFloat.of_Z 1) (Some "b"%string) 2 3;
      Refresh (PyFloat.of_Z 2) (Some "b"%string) 2 3;
      NewLine (PyFloat.of_Z 3) (Some "c"%string) 3 3;
      Refresh (PyFloat.of_Z 4) (Some "c"%string) 3 3;
      Other (Finished (Some 3%nat)) ] /\
  play_main scenario_lyrics scenario_polls =
    play_universal scenario_lyrics scenario_polls.
Proof. repeat split; vm_compute; reflexivity. Qed.

(** C2, as stated, fails: the music still plays when the clock reads 4 s,
    so that tick shows a fifth frame, a refresh, and the session finishes
    one poll later. *)
Lemma scenario_shows_fifth_frame :
  option_map observe (nth_error (play_universal scenario_lyrics scenario_polls) 5) =
    Some (Refresh (PyFloat.of_Z 4) (Some "c"%string) 3 3) /\
  List.length (filter is_frame (play_universal scenario_lyrics scenario_polls)) = 5%nat.
Proof. split; vm_compute; reflexivity. Qed.

Lemma audio_only_loop_idle polls :
  audio_only_loop polls = true <-> In Idle polls.
Proof.
  induction polls as [|p polls IH]; simpl.
  - split; [discriminate|tauto].
  - destruct p; simpl.
    + split; auto.
    + rewrite IH. split; auto. intros [H|H]; [discriminate|auto].
Qed.

(** C9, as corrected. Parsing the empty text keeps no line and
    [load_lyrics] returns [False], without a duration. With no lyrics the
    player of [main.py] starts the audio and waits: it shows no frame, and
    when the music stops the session finishes. The player of
    [karaoke_universal.py] returns at once. *)
Theorem empty_timeline_boundary : forall polls,
  load_lyrics (Content EmptyString) = (Returned false, []) /\
  play_main [] polls =
    AudioStarted :: AudioOnlyBanner
      :: (if audio_only_loop polls then [Finished None] else []) /\
  filter is_frame (play_main [] polls) = [] /\
  (In Idle polls ->
   play_main [] polls = [AudioStarted; AudioOnlyBanner; Finished None]) /\
  play_universal [] polls = [NoLyricsLoaded].
Proof.
  intros polls. repeat split.
  - simpl. destruct (audio_only_loop polls); reflexivity.
  - intros H. apply audio_only_loop_idle in H. simpl. rewrite H. reflexivity.
Qed.

(** C9, as stated, fails for [karaoke_universal.py]: with no lyrics its
    [play] neither starts the audio nor finishes a session. *)
Lemma universal_player_plays_nothing_without_lyrics :
  play_universal [] [Busy PyFloat.zero; Idle] = [NoLyricsLoaded].
Proof. reflexivity. Qed.

End PlayerFacts.

(** ** The timing adjuster *)

Module AdjustFacts.

Import PyStr AdjustTiming Props.



(** Two lines half a second apart, moved two seconds earlier, get the same
    timestamp. *)
Example clamped_lines_coincide :
  adjust_lrc_timing (Some (join (String LF EmptyString) ["[00:01.00]x"; "[00:01.50]y"]%string))
    (PyFloat.of_Z (-2))
  = (true, Some (join (String LF EmptyString) ["[00:00.00]x"; "[00:00.00]y"]%string)).
Proof. vm_compute. reflexivity. Qed.

(** C7 fails on the code. [format_timestamp] truncates the centiseconds of
    a product that floating point leaves just below the integer: the line
    [[00:00.01]x] moved by +2.0 becomes [[00:02.00]x], and moved back by
    -2.0 it is [[00:00.00]x], a centisecond away from the original. Without
    any offset, 0.29 s is already written as [00:00.28]. *)
Theorem offset_round_trip_loses_centisecond :
  adjust_lrc_timing (Some "[00:00.01]x"%string) (PyFloat.of_Z 2)
    = (true, Some "[00:02.00]x"%string) /\
  adjust_lrc_timing (Some "[00:02.00]x"%string) (PyFloat.of_Z (-2))
    = (true, Some "[00:00.00]x"%string) /\
  timed_pairs "[00:00.01]x" = [(seconds_value 0 0 1, "x"%string)] /\
  timed_pairs "[00:00.00]x" = [(PyFloat.zero, "x"%string)] /\
  same_pairs micro (timed_pairs "[00:00.01]x") (timed_pairs "[00:00.00]x") = false /\
  format_timestamp (seconds_value 0 0 29) = Some "00:00.28"%string.
Proof. repeat split; vm_compute; reflexivity. Qed.

End AdjustFacts.

(** ** Whole runs of the playback loop *)

Module RunFacts.

Import Lyrics Player Props RunProps PlayerFacts.

Lemma firstn_snoc_nth {A} (l : list A) : forall i x,
  nth_error l i = Some x -> firstn (S i) l = firstn i l ++ [x].
Proof.
  induction l as [|a l IH]; intros [|i] x H; simpl in *; try discriminate.
  - inversion H. reflexivity.
  - f_equal. apply IH, H.
Qed.

Lemma length_firstn_le {A} (l : list A) i :
  (i <= List.length l)%nat -> List.length (firstn i l) = i.
Proof. intros H. rewrite length_firstn. lia. Qed.

Lemma last_line_numbered lyrics k :
  (k <= List.length lyrics)%nat ->
  List.last (map Some (map text (firstn k lyrics))) None = line_numbered lyrics k.
Proof.
  intros Hk. destruct k as [|i]; simpl line_numbered.
  - reflexivity.
  - destruct (nth_error lyrics i) as [x|] eqn:E.
    + rewrite (firstn_snoc_nth _ _ _ E), map_app. simpl.
      apply last_some_snoc.
    + apply nth_error_None in E. lia.
Qed.

(** One tick keeps the history in step with the cursor. *)
Lemma tick_history_ok lyrics st now st' shown :
  history_ok lyrics st ->
  tick lyrics st now = Some (st', shown) ->
  history_ok lyrics st'.
Proof.
  intros [Hd Hi] H. destruct (tick_state _ _ _ _ _ H) as [Ed Ei].
  unfold history_ok. rewrite Ed, Ei.
  destruct (advance_cases lyrics st now) as [E|(next & Hn & _ & E)];
    rewrite E; simpl; auto.
  assert (Hlt : (current_line_index st < List.length lyrics)%nat).
  { apply nth_error_Some. congruence. }
  split; [|lia].
  rewrite Nat.add_1_r, (firstn_snoc_nth _ _ _ Hn), map_app, Hd. reflexivity.
Qed.

Lemma tick_frame_ok lyrics st now st' f :
  history_ok lyrics st ->
  tick lyrics st now = Some (st', Some f) ->
  frame_ok lyrics f.
Proof.
  intros Hst H.
  pose proof (tick_history_ok _ _ _ _ _ Hst H) as [Hd' Hi'].
  destruct (tick_state _ _ _ _ _ H) as [Ed Ei].
  pose proof (tick_frame _ _ _ _ _ H) as Hr.
  apply render_fields in Hr.
  destruct Hr as (Hnew & _ & Hcur & Hshown & Htotal & Hel).
  rewrite <- Ed in Hcur, Hshown.
  assert (Hn : lines_shown f = current_line_index st').
  { rewrite Hshown, Hd', length_map. apply length_firstn_le, Hi'. }
  unfold frame_ok. rewrite Hn. repeat split; auto.
  - rewrite Hcur, Hd'. apply last_line_numbered, Hi'.
  - intros Hsu. rewrite Hnew in Hsu.
    destruct (advance_cases lyrics st now) as [E|(next & Hnx & Hg & E)];
      rewrite E in *; simpl in *; try discriminate.
    exists next. rewrite Ei, Hel.
    replace (current_line_index st + 1 - 1)%nat with (current_line_index st) by lia.
    repeat split; auto. lia.
Qed.

(** The invariant along a run. *)
Lemma loop_invariant lyrics : forall polls st,
  history_ok lyrics st ->
  history_ok lyrics (snd (fst (karaoke_loop lyrics st polls))) /\
  Forall (frame_ok lyrics) (frames_of (fst (fst (karaoke_loop lyrics st polls)))).
Proof.
  induction polls as [|p polls IH]; intros st Hst; simpl.
  - split; auto; constructor.
  - destruct p as [|now]; simpl.
    + split; auto; constructor.
    + destruct (tick lyrics st now) as [[st' shown]|] eqn:T; simpl.
      * pose proof (tick_history_ok _ _ _ _ _ Hst T) as Hst'.
        destruct (IH st' Hst') as [Hf Hfr].
        destruct (karaoke_loop lyrics st' polls) as [[evs final] exited].
        simpl in *. split; auto.
        destruct shown as [f|]; simpl; auto.
        constructor; auto. exact (tick_frame_ok _ _ _ _ _ Hst T).
      * split; auto; constructor.
Qed.

Lemma initial_history_ok lyrics : history_ok lyrics initial_state.
Proof. split; simpl; [reflexivity|lia]. Qed.

(** X1. Along every run the history is the texts of the first lines of
    the timeline, as many as the cursor has passed, and the cursor never
    leaves the timeline; every frame shows [Line k/n] with [n] the number
    of lines, [k <= n], and highlights line [k]. *)
Theorem history_follows_timeline : forall lyrics polls,
  let run := karaoke_loop lyrics initial_state polls in
  let final := snd (fst run) in
  displayed_lines final = map text (firstn (current_line_index final) lyrics) /\
  (current_line_index final <= List.length lyrics)%nat /\
  (forall f, In f (frames_of (fst (fst run))) ->
     total_lines f = List.length lyrics /\
     (lines_shown f <= total_lines f)%nat /\
     current_line f = line_numbered lyrics (lines_shown f)).
Proof.
  intros lyrics polls run final.
  destruct (loop_invariant lyrics polls initial_state (initial_history_ok lyrics))
    as [[Hd Hi] Hfr].
  fold run in Hd, Hi, Hfr. fold final in Hd, Hi.
  repeat split; auto;
    rewrite Forall_forall in Hfr; destruct (Hfr f H) as (Ht & Hs & Hc & _); auto.
  rewrite Ht. exact Hs.
Qed.

(** X2. No line is shown before its time: a frame for a new line
    highlights the line whose number it shows, and the clock of that frame
    has reached the time of that line. *)
Theorem no_line_before_its_time : forall lyrics polls f,
  In f (frames_of (fst (fst (karaoke_loop lyrics initial_state polls)))) ->
  is_new_line f = true ->
  exists l,
    nth_error lyrics (lines_shown f - 1) = Some l /\
    current_line f = Some (text l) /\
    PyFloat.geb (elapsed f) (time l) = true.
Proof.
  intros lyrics polls f Hin Hnew.
  destruct (loop_invariant lyrics polls initial_state (initial_history_ok lyrics))
    as [_ Hfr].
  rewrite Forall_forall in Hfr.
  destruct (Hfr f Hin) as (_ & _ & Hc & Hn).
  destruct (Hn Hnew) as (l & Hl & H1 & Hg).
  exists l. repeat split; auto.
  rewrite Hc. destruct (lines_shown f) as [|k]; [lia|].
  simpl in *. rewrite Nat.sub_0_r in Hl. rewrite Hl. reflexivity.
Qed.

Lemma tick_silent lyrics st now st' :
  tick lyrics st now = Some (st', None) -> st' = st.
Proof.
  unfold tick.
  destruct (advance_cases lyrics st now) as [E|(next & _ & _ & E)]; rewrite E.
  - destruct (false || _).
    + destruct (render _ _ _ _); discriminate.
    + intros H. inversion H. reflexivity.
  - simpl. destruct (render _ _ _ _); discriminate.
Qed.

Lemma tick_shown lyrics st now st' f :
  tick lyrics st now = Some (st', Some f) ->
  last_update_time st' = now /\ elapsed f = now /\
  (is_new_line f = false ->
   PyFloat.geb (PyFloat.sub now (last_update_time st)) PyFloat.half = true).
Proof.
  intros H. pose proof (tick_frame _ _ _ _ _ H) as Hr.
  apply render_fields in Hr. destruct Hr as (Hnew & _ & _ & _ & _ & Hel).
  revert H Hnew. unfold tick.
  destruct (advance_cases lyrics st now) as [E|(next & _ & _ & E)];
    rewrite E; simpl.
  - destruct (PyFloat.geb _ _) eqn:G.
    + destruct (render _ _ _ _); try discriminate.
      intros H _. inversion H. subst. simpl. auto.
    + discriminate.
  - destruct (render _ _ _ _); try discriminate.
    intros H Hn. inversion H. subst. simpl.
    repeat split; auto. intros C. congruence.
Qed.

Lemma last_cons_default {A} (a : A) l d : List.last (a :: l) d = List.last l a.
Proof.
  revert a d. induction l as [|b l IH]; intros a d; auto.
  change (List.last (a :: b :: l) d) with (List.last (b :: l) d).
  rewrite (IH b d), (IH b a). reflexivity.
Qed.

Lemma loop_refresh_spacing lyrics : forall polls st pre f post,
  frames_of (fst (fst (karaoke_loop lyrics st polls))) = pre ++ f :: post ->
  is_new_line f = false ->
  PyFloat.geb
    (PyFloat.sub (elapsed f) (List.last (map elapsed pre) (last_update_time st)))
    PyFloat.half = true.
Proof.
  induction polls as [|p polls IH]; intros st pre f post; simpl.
  - destruct pre; discriminate.
  - destruct p as [|now]; simpl.
    + destruct pre; discriminate.
    + destruct (tick lyrics st now) as [[st' shown]|] eqn:T; simpl.
      * specialize (IH st').
        destruct (karaoke_loop lyrics st' polls) as [[evs final] exited].
        simpl in *.
        destruct shown as [f0|]; simpl.
        -- destruct (tick_shown _ _ _ _ _ T) as (Hl & He & Hg).
           destruct pre as [|f1 pre]; intros E Hn; simpl in E; inversion E; subst.
           ++ simpl. rewrite He. auto.
           ++ change (map elapsed (f1 :: pre)) with (elapsed f1 :: map elapsed pre).
              rewrite last_cons_default.
              replace (elapsed f1) with (last_update_time st') by congruence.
              eapply IH; eauto.
        -- apply tick_silent in T. subst st'. apply IH.
      * destruct pre; discriminate.
Qed.

(** X3. A frame that shows no new line comes at least half a second, by
    the clock, after the frame before it, or after the start when it is the
    first one. *)
Theorem refresh_at_most_twice_a_second : forall lyrics polls pre f post,
  frames_of (fst (fst (karaoke_loop lyrics initial_state polls))) = pre ++ f :: post ->
  is_new_line f = false ->
  PyFloat.geb
    (PyFloat.sub (elapsed f) (List.last (map elapsed pre) PyFloat.zero))
    PyFloat.half = true.
Proof.
  intros lyrics polls pre f post H Hn.
  exact (loop_refresh_spacing lyrics polls initial_state pre f post H Hn).
Qed.

Lemma crashed_frame f evs : crashed (Frame f :: evs) = crashed evs.
Proof. reflexivity. Qed.

Lemma loop_catches_up lyrics : forall ts st,
  Forall (all_due lyrics) ts ->
  (current_line_index st <= List.length lyrics)%nat ->
  crashed (fst (fst (karaoke_loop lyrics st (map Busy ts)))) = false ->
  current_line_index (snd (fst (karaoke_loop lyrics st (map Busy ts)))) =
    Nat.min (List.length lyrics) (current_line_index st + List.length ts).
Proof.
  induction ts as [|t ts IH]; intros st Hdue Hi; simpl.
  - intros _. lia.
  - inversion Hdue as [|? ? Ht Hts]; subst.
    destruct (tick lyrics st t) as [[st' shown]|] eqn:T; simpl; [|discriminate].
    destruct (tick_state _ _ _ _ _ T) as [_ Ei].
    assert (Hi' : current_line_index st' =
                  Nat.min (List.length lyrics) (current_line_index st + 1)).
    { rewrite Ei. destruct (nth_error lyrics (current_line_index st)) as [next|] eqn:N.
      - assert (G : PyFloat.geb t (time next) = true).
        { unfold all_due in Ht. rewrite Forall_forall in Ht.
          apply Ht. eapply nth_error_In; eauto. }
        rewrite (advance_due _ _ _ _ N G). simpl.
        assert ((current_line_index st < List.length lyrics)%nat)
          by (apply nth_error_Some; congruence).
        lia.
      - apply nth_error_None in N.
        destruct (advance_cases lyrics st t) as [E|(next & Hn & _)].
        + rewrite E. simpl. lia.
        + assert ((current_line_index st < List.length lyrics)%nat)
            by (apply nth_error_Some; congruence).
          lia. }
    specialize (IH st' Hts ltac:(lia)).
    destruct (karaoke_loop lyrics st' (map Busy ts)) as [[evs final] exited].
    simpl in *. intros C.
    assert (C' : crashed evs = false) by (destruct shown; exact C).
    rewrite (IH C'). lia.
Qed.

(** X4. A backlog clears at one line per tick: when every tick reads a
    clock that has passed the time of every line, and no screen update
    fails, then after [n] ticks the first [n] lines of the timeline have
    been shown, all of them once [n] reaches their number. *)
Theorem backlog_clears_one_line_per_tick : forall lyrics ts,
  Forall (all_due lyrics) ts ->
  crashed (fst (fst (karaoke_loop lyrics initial_state (map Busy ts)))) = false ->
  let final := snd (fst (karaoke_loop lyrics initial_state (map Busy ts))) in
  current_line_index final = Nat.min (List.length lyrics) (List.length ts) /\
  displayed_lines final = map text (firstn (List.length ts) lyrics).
Proof.
  intros lyrics ts Hdue C final.
  pose proof (loop_catches_up lyrics ts initial_state Hdue
                ltac:(simpl; lia) C) as Hi.
  simpl in Hi. fold final in Hi.
  destruct (loop_invariant lyrics (map Busy ts) initial_state
              (initial_history_ok lyrics)) as [[Hd _] _].
  fold final in Hd. split; auto.
  rewrite Hd, Hi.
  destruct (Nat.le_ge_cases (List.length lyrics) (List.length ts)) as [L|L].
  - rewrite Nat.min_l by exact L.
    rewrite firstn_all, firstn_all2 by exact L. reflexivity.
  - rewrite Nat.min_r by exact L. reflexivity.
Qed.

Lemma no_line_before_its_time_witness :
  exists f l,
    In f (frames_of (fst (fst (karaoke_loop scenario_lyrics initial_state
                                            scenario_polls)))) /\
    is_new_line f = true /\
    nth_error scenario_lyrics (lines_shown f - 1) = Some l /\
    PyFloat.geb (elapsed f) (time l) = true.
Proof.
  remember (frames_of (fst (fst (karaoke_loop scenario_lyrics initial_state
                                              scenario_polls)))) as fs eqn:E.
  destruct fs as [|f rest]; [vm_compute in E; discriminate|].
  assert (Hin : In f (frames_of (fst (fst (karaoke_loop scenario_lyrics
                                             initial_state scenario_polls)))))
    by (rewrite <- E; left; reflexivity).
  assert (Hnew : is_new_line f = true)
    by (vm_compute in E; inversion E; reflexivity).
  destruct (no_line_before_its_time _ _ f Hin Hnew) as (l & H1 & _ & H3).
  exists f, l. rewrite E. auto.
Defined.

Lemma refresh_at_most_twice_a_second_witness :
  exists pre f post,
    frames_of (fst (fst (karaoke_loop scenario_lyrics initial_state scenario_polls)))
    = pre ++ f :: post /\
    is_new_line f = false /\
    PyFloat.geb
      (PyFloat.sub (elapsed f) (List.last (map elapsed pre) PyFloat.zero))
      PyFloat.half = true.
Proof.
  remember (frames_of (fst (fst (karaoke_loop scenario_lyrics initial_state
                                              scenario_polls)))) as fs eqn:E.
  destruct fs as [|f1 [|f2 [|f3 rest]]]; try (vm_compute in E; discriminate).
  assert (Hn : is_new_line f3 = false)
    by (vm_compute in E; inversion E; reflexivity).
  exists [f1; f2], f3, rest. repeat split; auto.
  apply (refresh_at_most_twice_a_second scenario_lyrics scenario_polls
           [f1; f2] f3 rest); [symmetry; exact E|exact Hn].
Defined.

Lemma backlog_clears_one_line_per_tick_witness :
  displayed_lines
    (snd (fst (karaoke_loop backlog_lyrics initial_state
                 (map Busy [PyFloat.of_Z 5; PyFloat.of_Z 5]))))
  = map text (firstn 2 backlog_lyrics).
Proof.
  assert (H1 : Forall (all_due backlog_lyrics) [PyFloat.of_Z 5; PyFloat.of_Z 5])
    by (repeat constructor).
  assert (H2 : crashed (fst (fst (karaoke_loop backlog_lyrics initial_state
                                    (map Busy [PyFloat.of_Z 5; PyFloat.of_Z 5]))))
               = false)
    by (vm_compute; reflexivity).
  exact (proj2 (backlog_clears_one_line_per_tick backlog_lyrics
                  [PyFloat.of_Z 5; PyFloat.of_Z 5] H1 H2)).
Defined.

End RunFacts.

(** ** More on the parser *)

Module LyricsMoreFacts.

Import PyStr Lyrics Props StrFacts FloatFacts LyricsFacts.

Lemma rstrip_idempotent p s : rstrip_by p (rstrip_by p s) = rstrip_by p s.
Proof.
  induction s as [|c s IH]; simpl; auto.
  destruct (rstrip_by p s) as [|b r] eqn:E.
  - destruct (p c) eqn:Ec; simpl; auto. rewrite Ec. reflexivity.
  - change (rstrip_by p (String c (String b r)))
      with (match rstrip_by p (String b r) with
            | EmptyString => if p c then EmptyString else String c EmptyString
            | r' => String c r'
            end).
    rewrite IH. reflexivity.
Qed.

Lemma lstrip_head p s :
  lstrip_by p s = EmptyString \/
  exists c r, lstrip_by p s = String c r /\ p c = false.
Proof.
  induction s as [|c s IH]; simpl; auto.
  destruct (p c) eqn:E; auto. right. eauto.
Qed.

Lemma rstrip_keeps_head p c r :
  p c = false -> exists r', rstrip_by p (String c r) = String c r'.
Proof.
  intros H. simpl. destruct (rstrip_by p r); rewrite ?H; eauto.
Qed.

Lemma strip_idempotent s : strip (strip s) = strip s.
Proof.
  unfold strip.
  assert (H : lstrip_by isspace (rstrip_by isspace (lstrip_by isspace s))
              = rstrip_by isspace (lstrip_by isspace s)).
  { destruct (lstrip_head isspace s) as [E|(c & r & E & Hc)]; rewrite E.
    - reflexivity.
    - destruct (rstrip_keeps_head isspace c r Hc) as [r' E'].
      rewrite E'. simpl. rewrite Hc. reflexivity. }
  rewrite H. apply rstrip_idempotent.
Qed.

(** X5. Whitespace around a line makes no difference to what is parsed
    from it. *)
Theorem surrounding_whitespace_ignored : forall line,
  parse_line (strip line) = parse_line line.
Proof.
  intros line. unfold parse_line. rewrite strip_idempotent. reflexivity.
Qed.

(** The characters before the first occurrence of a character. *)
Lemma slice_before_first c s :
  contains c (slice s 1 (find c s)) = false.
Proof.
  destruct (contains c s) eqn:E.
  - destruct (contains_first _ _ E) as (pre & post & -> & Hp).
    rewrite (find_first _ _ _ Hp).
    destruct pre as [|c0 ts].
    + unfold slice. simpl append.
      assert (Z0 : Z.to_nat (clip (len (String c post)) (len EmptyString)
                             - clip (len (String c post)) 1) = 0%nat).
      { unfold clip, len. simpl String.length.
        change (Z.of_nat 0 <? 0) with false. change (1 <? 0) with false.
        cbv iota. lia. }
      rewrite Z0. reflexivity.
    + simpl in Hp. apply orb_false_iff in Hp. destruct Hp as [_ Hts].
      replace (len (String c0 ts)) with (1 + len ts)
        by (unfold len; simpl String.length; lia).
      simpl append. rewrite slice_timestamp. exact Hts.
  - assert (F : find c s = -1).
    { clear -E. induction s as [|a s IH]; simpl in *; auto.
      apply orb_false_iff in E. destruct E as [Ea Es].
      rewrite Ea, (IH Es). reflexivity. }
    rewrite F. unfold slice, clip.
    assert (H : forall n t, contains c t = false -> contains c (take n t) = false).
    { induction n as [|n IHn]; intros [|a t]; simpl; auto.
      intros H. apply orb_false_iff in H. destruct H as [Ha Ht].
      rewrite Ha. simpl. auto. }
    assert (H' : forall n t, contains c t = false -> contains c (drop n t) = false).
    { induction n as [|n IHn]; intros [|a t]; simpl; auto.
      intros H0. apply orb_false_iff in H0. destruct H0 as [_ Ht]. auto. }
    apply H, H', E.
Qed.

Lemma parse_line_entry line l :
  parse_line line = Some l ->
  is_empty (text l) = false /\
  strip (text l) = text l /\
  contains "]" (timestamp l) = false.
Proof.
  unfold parse_line.
  destruct (_ || _); try discriminate.
  destruct (is_empty _) eqn:E; try discriminate.
  destruct (parse_time _); try discriminate.
  intros H. inversion H. subst. simpl.
  repeat split; auto.
  - apply strip_idempotent.
  - apply slice_before_first.
Qed.

Lemma in_parse_lines l lines :
  In l (parse_lines [] lines) -> exists line, In line lines /\ parse_line line = Some l.
Proof.
  rewrite parse_lines_kept. simpl. rewrite in_flat_map.
  intros (line & Hin & Hk). exists line. split; auto.
  unfold kept in Hk. destruct (parse_line line); simpl in Hk; [|contradiction].
  destruct Hk as [->|[]]. reflexivity.
Qed.

(** X6. Every entry of [self.lyrics] after [load_lyrics] has a text that is
    not empty and carries no whitespace at its ends, a timestamp without a
    closing bracket that parses to the entry's time, and a time that is a
    number. *)
Theorem loaded_entries_well_formed : forall content l,
  In l (snd (load_lyrics (Content content))) ->
  is_empty (text l) = false /\
  strip (text l) = text l /\
  contains "]" (timestamp l) = false /\
  parse_time (timestamp l) = Some (time l) /\
  is_nan (time l) = false.
Proof.
  intros content l H. rewrite load_lyrics_sorts in H.
  apply (Permutation_in _ (Permutation_sym (sort_perm _))) in H.
  destruct (in_parse_lines _ _ H) as (line & _ & Hl).
  destruct (parse_line_entry _ _ Hl) as (H1 & H2 & H3).
  repeat split; auto.
  - apply (parse_line_time _ _ Hl).
  - apply (parse_line_not_nan _ _ Hl).
Qed.

(** X7. [load_lyrics] returns [False] exactly when the file is missing, or
    is read and every line of it is skipped. When reading the file fails
    with another exception than [FileNotFoundError], the call does not
    return: the exception escapes it. In these three cases, and in no
    other, [self.lyrics] is left empty; for a file that is read it has one
    entry for each line that is kept. *)
Theorem load_lyrics_fails_without_kept_line : forall file,
  (fst (load_lyrics file) = Returned false <->
   match file with
   | Missing => True
   | Unreadable => False
   | Content content => Forall (fun line => parse_line line = None) (readlines content)
   end) /\
  (file = Unreadable -> fst (load_lyrics file) = Raised) /\
  (snd (load_lyrics file) = [] <->
   match file with
   | Missing | Unreadable => True
   | Content content => Forall (fun line => parse_line line = None) (readlines content)
   end) /\
  match file with
  | Missing | Unreadable => True
  | Content content =>
      List.length (snd (load_lyrics file))
      = List.length (flat_map kept (readlines content))
  end.
Proof.
  intros [| |content].
  { simpl. repeat split; auto. discriminate. }
  { simpl. repeat split; auto; try discriminate; contradiction. }
  assert (K : parse_lines [] (readlines content) = flat_map kept (readlines content))
    by (rewrite parse_lines_kept; reflexivity).
  assert (E0 : forall lines, flat_map kept lines = [] <->
              Forall (fun line => parse_line line = None) lines).
  { induction lines as [|line lines IH]; simpl.
    - split; auto.
    - unfold kept at 1. destruct (parse_line line) eqn:P; simpl.
      + split; [discriminate|]. intros H. inversion H. congruence.
      + rewrite IH. split; intros H.
        * constructor; [exact P|exact H].
        * inversion H; assumption. }
  pose proof (E0 (readlines content)) as E.
  assert (S0 : forall l, sort l = [] <-> l = []).
  { intros l. split; intros H; [|subst; reflexivity].
    pose proof (Permutation_length (sort_perm l)) as L. rewrite H in L.
    destruct l; [reflexivity|discriminate]. }
  split; [split|split; [|split; [split|]]].
  - unfold load_lyrics. rewrite K. intros H. apply (proj1 E).
    destruct (flat_map kept (readlines content)) as [|x l] eqn:F; auto.
    simpl in H.
    destruct (last_lyric _); [destruct (format_time _)|]; discriminate.
  - intros H. apply (proj2 E) in H.
    unfold load_lyrics. rewrite K, H. reflexivity.
  - discriminate.
  - rewrite load_lyrics_sorts, K. intros H. apply (proj1 (S0 _)) in H. apply (proj1 E), H.
  - rewrite load_lyrics_sorts, K. intros H. apply (proj2 (S0 _)). apply (proj2 E), H.
  - rewrite load_lyrics_sorts, K. symmetry. apply Permutation_length, sort_perm.
Qed.

(** X8. The player and the adjuster read every timestamp alike: the same
    strings are rejected, and the others get the same time. *)
Theorem both_parsers_agree : forall timestamp,
  AdjustTiming.parse_timestamp timestamp = parse_time timestamp.
Proof. intros timestamp. apply parse_timestamp_parse_time. Qed.

Lemma loaded_entries_well_formed_witness :
  In (mkLyric PyFloat.zero "a" "00:00.00") (snd (load_lyrics (Content scenario_text))) /\
  is_empty "a" = false /\ parse_time "00:00.00" = Some PyFloat.zero.
Proof.
  assert (H : In (mkLyric PyFloat.zero "a" "00:00.00")
                 (snd (load_lyrics (Content scenario_text))))
    by (vm_compute; left; reflexivity).
  destruct (loaded_entries_well_formed scenario_text _ H) as (H1 & _ & _ & H4 & _).
  auto.
Defined.

End LyricsMoreFacts.

(** ** Numbers and timestamps written and read back *)

Module StampFacts.

Import PyStr CharProps StrFacts.

Lemma digit_val_char d : 0 <= d <= 9 -> digit_val (digit_char d) = Some d.
Proof.
  intros H.
  assert (C : d = 0 \/ d = 1 \/ d = 2 \/ d = 3 \/ d = 4 \/ d = 5 \/ d = 6 \/
              d = 7 \/ d = 8 \/ d = 9) by lia.
  repeat (destruct C as [->|C]; [reflexivity|]). subst. reflexivity.
Qed.

Lemma log2_tenth n : 10 <= n -> Z.log2 (n / 10) < Z.log2 n.
Proof.
  intros H.
  assert (Hq : 0 < n / 10) by (apply Z.div_str_pos; lia).
  apply Z.log2_lt_pow2; [exact Hq|].
  destruct (Z.log2_spec n ltac:(lia)) as [_ Hu].
  rewrite Z.pow_succ_r in Hu by apply Z.log2_nonneg.
  pose proof (Z.mul_div_le n 10 ltac:(lia)). lia.
Qed.

(** Reading the digits that [pos_digits] writes. *)
Lemma int_digits_pos_digits : forall fuel n acc prev,
  0 <= n -> (Z.to_nat (Z.log2 n) < fuel)%nat ->
  int_digits 0 prev (pos_digits fuel n acc) = int_digits n true acc.
Proof.
  induction fuel as [|fuel IH]; intros n acc prev Hn Hf; [lia|].
  simpl pos_digits.
  assert (Hm : 0 <= n mod 10 <= 9) by (pose proof (Z.mod_pos_bound n 10); lia).
  destruct (n / 10 =? 0) eqn:E.
  - apply Z.eqb_eq in E.
    assert (n mod 10 = n) by (pose proof (Z.div_mod n 10); lia).
    simpl int_digits. rewrite (digit_val_char _ Hm). f_equal. lia.
  - apply Z.eqb_neq in E.
    assert (H10 : 10 <= n).
    { destruct (Z_lt_le_dec n 10) as [L|L]; auto.
      rewrite Z.div_small in E by lia. contradiction. }
    rewrite IH.
    + simpl int_digits. rewrite (digit_val_char _ Hm). f_equal.
      pose proof (Z.div_mod n 10). lia.
    + apply Z.div_pos; lia.
    + pose proof (log2_tenth n H10). pose proof (Z.log2_nonneg (n / 10)). lia.
Qed.

Lemma int_digits_decimal n prev :
  0 <= n -> int_digits 0 prev (decimal n) = Some n.
Proof.
  intros H. unfold decimal. rewrite int_digits_pos_digits; auto; lia.
Qed.

Lemma int_digits_zeros k : forall prev r,
  int_digits 0 prev (zeros k ++ r) = int_digits 0 (prev || (0 <? k)%nat) r.
Proof.
  induction k as [|k IH]; intros prev r; simpl.
  - rewrite orb_false_r. reflexivity.
  - change (digit_val "0") with (Some 0). simpl Z.add.
    rewrite IH. rewrite orb_true_r. destruct k; reflexivity.
Qed.

Lemma is_digit_char d : 0 <= d <= 9 -> is_digit (digit_char d) = true.
Proof. intros H. unfold is_digit. rewrite (digit_val_char _ H). reflexivity. Qed.

Lemma pos_digits_all q : (forall d, 0 <= d <= 9 -> q (digit_char d) = true) ->
  forall fuel n acc,
    all_chars q acc = true -> all_chars q (pos_digits fuel n acc) = true.
Proof.
  intros Hq. induction fuel as [|fuel IH]; intros n acc Ha; simpl; auto.
  assert (Hm : 0 <= n mod 10 <= 9) by (pose proof (Z.mod_pos_bound n 10); lia).
  destruct (n / 10 =? 0).
  - simpl. rewrite (Hq _ Hm), Ha. reflexivity.
  - apply IH. simpl. rewrite (Hq _ Hm), Ha. reflexivity.
Qed.

Lemma all_chars_append q a b :
  all_chars q (a ++ b) = all_chars q a && all_chars q b.
Proof. induction a; simpl; auto. rewrite IHa. apply andb_assoc. Qed.

Lemma zeros_all q k : q "0"%char = true -> all_chars q (zeros k) = true.
Proof. intros H. induction k; simpl; auto. rewrite H. auto. Qed.

Lemma number_chars_digit d : 0 <= d <= 9 -> is_number_char (digit_char d) = true.
Proof. intros H. unfold is_number_char. rewrite (is_digit_char _ H). reflexivity. Qed.

(** A number is written with digits and at most a sign. *)
Lemma format_02d_chars n : all_chars is_number_char (format_02d n) = true.
Proof.
  unfold format_02d. rewrite !all_chars_append.
  rewrite zeros_all by reflexivity.
  unfold decimal. rewrite (pos_digits_all _ number_chars_digit) by reflexivity.
  destruct (n <? 0); reflexivity.
Qed.

Lemma all_chars_weaken (q q' : ascii -> bool) s :
  (forall c, q c = true -> q' c = true) ->
  all_chars q s = true -> all_chars q' s = true.
Proof.
  intros H. induction s as [|c s IH]; simpl; auto.
  intros E. apply andb_true_iff in E. destruct E as [Ec Es].
  rewrite (H _ Ec), (IH Es). reflexivity.
Qed.

Lemma all_chars_not_contains q c s :
  q c = false -> all_chars q s = true -> contains c s = false.
Proof.
  intros Hc. induction s as [|a s IH]; simpl; auto.
  intros E. apply andb_true_iff in E. destruct E as [Ea Es].
  rewrite (IH Es), orb_false_r.
  destruct (Ascii.eqb a c) eqn:Eq; auto.
  apply Ascii.eqb_eq in Eq. congruence.
Qed.

Lemma lstrip_all p s :
  all_chars (fun c => negb (p c)) s = true -> lstrip_by p s = s.
Proof.
  destruct s as [|c s]; simpl; auto.
  intros E. apply andb_true_iff in E. destruct E as [Ec _].
  apply negb_true_iff in Ec. rewrite Ec. reflexivity.
Qed.

Lemma rstrip_all p s :
  all_chars (fun c => negb (p c)) s = true -> rstrip_by p s = s.
Proof.
  induction s as [|c s IH]; simpl; auto.
  intros E. apply andb_true_iff in E. destruct E as [Ec Es].
  apply negb_true_iff in Ec. rewrite (IH Es), Ec.
  destruct s; reflexivity.
Qed.

Lemma number_char_cases c :
  is_number_char c = true ->
  isspace c = false /\ is_newline c = false /\
  Ascii.eqb c ":" = false /\ Ascii.eqb c "." = false /\
  Ascii.eqb c "[" = false /\ Ascii.eqb c "]" = false /\
  Ascii.eqb c "+" = false.
Proof.
  unfold is_number_char, is_digit, digit_val, isspace, is_newline.
  intros H.
  destruct (Ascii.eqb c "-") eqn:E.
  - apply Ascii.eqb_eq in E. subst. repeat split; reflexivity.
  - rewrite orb_false_r in H.
    destruct ((48 <=? ord c) && (ord c <=? 57)) eqn:D; try discriminate.
    apply andb_true_iff in D. destruct D as [D1 D2].
    apply Z.leb_le in D1, D2.
    assert (N : forall b, ord b < 48 \/ 57 < ord b -> Ascii.eqb c b = false).
    { intros b Hb. destruct (Ascii.eqb c b) eqn:Eb; auto.
      apply Ascii.eqb_eq in Eb. subst. lia. }
    repeat split; try (apply N; vm_compute; auto; fail).
    + apply orb_false_iff. split; apply andb_false_iff.
      * right. apply Z.leb_gt. lia.
      * right. apply Z.leb_gt. lia.
    + apply orb_false_iff. split; apply Z.eqb_neq; lia.
Qed.

Lemma strip_number s : all_chars is_number_char s = true -> strip s = s.
Proof.
  intros H. unfold strip.
  assert (A : all_chars (fun c => negb (isspace c)) s = true).
  { eapply all_chars_weaken; [|exact H].
    intros c Hc. destruct (number_char_cases c Hc) as (E & _). rewrite E. reflexivity. }
  rewrite (lstrip_all _ _ A). apply rstrip_all, A.
Qed.

Lemma int_space_isspace c : isspace c = false -> is_int_space c = false.
Proof.
  unfold isspace, is_int_space. intros H.
  apply orb_false_iff in H. destruct H as [H1 H2].
  rewrite H1. simpl.
  apply andb_false_iff in H2. apply Z.eqb_neq.
  destruct H2 as [H2|H2]; apply Z.leb_gt in H2; lia.
Qed.

Lemma int_strip_number s : all_chars is_number_char s = true -> int_strip s = s.
Proof.
  intros H. unfold int_strip.
  assert (A : all_chars (fun c => negb (is_int_space c)) s = true).
  { eapply all_chars_weaken; [|exact H].
    intros c Hc. destruct (number_char_cases c Hc) as (E & _).
    rewrite (int_space_isspace _ E). reflexivity. }
  rewrite (lstrip_all _ _ A). apply rstrip_all, A.
Qed.

Lemma digit_is_number_char c : is_digit c = true -> is_number_char c = true.
Proof. intros H. unfold is_number_char. rewrite H. reflexivity. Qed.

Lemma int_of_str_digits s :
  all_chars is_digit s = true -> int_of_str s = int_digits 0 false s.
Proof.
  intros H. unfold int_of_str.
  rewrite int_strip_number by (eapply all_chars_weaken; [apply digit_is_number_char|exact H]).
  destruct s as [|c s']; [reflexivity|].
  simpl in H. apply andb_true_iff in H. destruct H as [Hc _].
  destruct (number_char_cases c (digit_is_number_char c Hc)) as (_ & _ & _ & _ & _ & _ & Ep).
  assert (Em : Ascii.eqb c "-" = false).
  { destruct (Ascii.eqb c "-") eqn:E; auto.
    apply Ascii.eqb_eq in E. subst. discriminate. }
  rewrite Em, Ep. reflexivity.
Qed.

Lemma padded_digits k n :
  all_chars is_digit (zeros k ++ decimal n) = true.
Proof.
  rewrite all_chars_append, zeros_all by reflexivity.
  unfold decimal. apply (pos_digits_all _ is_digit_char). reflexivity.
Qed.

(** [int(f"{n:02d}") == n] *)
Lemma int_of_format_02d n : int_of_str (format_02d n) = Some n.
Proof.
  unfold format_02d.
  destruct (n <? 0) eqn:E.
  - apply Z.ltb_lt in E.
    set (z := (zeros _ ++ decimal (Z.abs n))%string).
    assert (F : all_chars is_number_char (String "-" z) = true).
    { simpl. eapply all_chars_weaken; [apply digit_is_number_char|].
      apply padded_digits. }
    unfold int_of_str.
    change (String "-" EmptyString ++ z)%string with (String "-" z).
    rewrite (int_strip_number _ F). simpl Ascii.eqb. cbv iota.
    unfold z. rewrite int_digits_zeros, int_digits_decimal by lia.
    simpl. f_equal. lia.
  - apply Z.ltb_ge in E. change (EmptyString ++ ?x)%string with x.
    rewrite Z.abs_eq by lia.
    rewrite int_of_str_digits by apply padded_digits.
    rewrite int_digits_zeros. apply int_digits_decimal. exact E.
Qed.

Lemma split_append sep a b :
  contains sep a = false -> split sep (a ++ String sep b) = a :: split sep b.
Proof.
  induction a as [|x a IH]; simpl; intros H.
  - rewrite Ascii.eqb_refl. reflexivity.
  - apply orb_false_iff in H. destruct H as [Hx Ha].
    rewrite Hx, (IH Ha). reflexivity.
Qed.

Lemma number_without c n :
  is_number_char c = false -> contains c (format_02d n) = false.
Proof.
  intros H. eapply all_chars_not_contains; [exact H|apply format_02d_chars].
Qed.

Lemma stamp_shape m s c :
  AdjustTiming.stamp m s c
  = (format_02d m ++ String ":" (format_02d s ++ String "." (format_02d c)))%string.
Proof. reflexivity. Qed.

Lemma stamp_chars c m s cs :
  is_number_char c = false -> Ascii.eqb ":" c = false -> Ascii.eqb "." c = false ->
  contains c (AdjustTiming.stamp m s cs) = false.
Proof.
  intros H H1 H2. rewrite stamp_shape.
  rewrite contains_append. cbn [contains]. rewrite contains_append. cbn [contains].
  rewrite !(number_without c) by exact H. rewrite H1, H2. reflexivity.
Qed.

(** A timestamp that is written is read back as its three fields. *)
Lemma parse_time_stamp m s c :
  Lyrics.parse_time (AdjustTiming.stamp m s c) = Lyrics.total_seconds m s c.
Proof.
  apply LyricsFacts.parse_time_fields.
  eapply Props.fields_with_centiseconds.
  - rewrite stamp_shape. rewrite split_append by (apply number_without; reflexivity).
    rewrite split_without; [reflexivity|].
    rewrite contains_append. cbn [contains].
    rewrite !(number_without ":") by reflexivity. reflexivity.
  - rewrite split_append by (apply number_without; reflexivity).
    rewrite split_without by (apply number_without; reflexivity). reflexivity.
  - apply int_of_format_02d.
  - apply int_of_format_02d.
  - apply int_of_format_02d.
Qed.

End StampFacts.

(** ** More on the timing adjuster *)

Module AdjustMoreFacts.

Import PyStr Lyrics AdjustTiming Props CharProps StrFacts StampFacts LyricsFacts
       LyricsMoreFacts.

(** A line that carries no timestamp stays as it is. *)
Lemma adjust_line_untimed offset_seconds line :
  timed_line line = None ->
  adjust_line offset_seconds line = Some (rstrip_newlines line, false).
Proof.
  unfold timed_line, adjust_line.
  destruct (negb _ && _ && _); auto.
  destruct ((0 <=? _) && _); auto.
  destruct (parse_timestamp _); auto. discriminate.
Qed.

(** A line that carries one gets the new timestamp in front of its text. *)
Lemma adjust_line_timed offset_seconds line t x :
  timed_line line = Some (t, x) ->
  adjust_line offset_seconds line =
    match format_timestamp (PyFloat.add t offset_seconds) with
    | Some new_timestamp => Some (("[" ++ new_timestamp ++ "]" ++ x)%string, true)
    | None => None
    end.
Proof.
  unfold timed_line, adjust_line.
  destruct (negb _ && _ && _); try discriminate.
  destruct ((0 <=? _) && _); try discriminate.
  destruct (parse_timestamp _); try discriminate.
  intros H. inversion H. reflexivity.
Qed.

Lemma format_timestamp_stamp x out :
  format_timestamp x = Some out -> exists m s c, out = stamp m s c.
Proof.
  unfold format_timestamp, format_float_seconds, format_int_seconds.
  destruct (PyFloat.ltb x PyFloat.zero).
  - intros H. inversion H. eauto.
  - destruct (PyFloat.floordiv _ _) as [q|]; try discriminate.
    destruct (PyFloat.to_int q) as [m|]; try discriminate.
    destruct (PyFloat.rem _ _) as [r|]; try discriminate.
    destruct (PyFloat.to_int r) as [s|]; try discriminate.
    destruct (PyFloat.of_int s) as [sf|]; try discriminate.
    destruct (PyFloat.to_int _) as [c|]; try discriminate.
    intros H. inversion H. eauto.
Qed.

(** X9. Whatever timestamp [format_timestamp] writes has three integer
    fields, and both parsers read it back as the time of those fields. *)
Theorem written_timestamp_is_read_back : forall x out,
  format_timestamp x = Some out ->
  exists m s c,
    out = stamp m s c /\
    parse_timestamp out = total_seconds m s c /\
    parse_time out = total_seconds m s c.
Proof.
  intros x out H.
  destruct (format_timestamp_stamp _ _ H) as (m & s & c & ->).
  exists m, s, c. repeat split.
  - rewrite parse_timestamp_parse_time. apply parse_time_stamp.
  - apply parse_time_stamp.
Qed.

Lemma append_empty s : (s ++ EmptyString)%string = s.
Proof. induction s; simpl; auto. f_equal; auto. Qed.

Lemma rstrip_tail p c s :
  rstrip_by p (String c s) = String c s -> rstrip_by p s = s.
Proof.
  simpl. destruct (rstrip_by p s) as [|d r] eqn:E.
  - destruct (p c); intros H; inversion H. reflexivity.
  - intros H. inversion H. reflexivity.
Qed.

Lemma rstrip_append p a b :
  rstrip_by p a = a -> rstrip_by p (a ++ b) = (a ++ rstrip_by p b)%string.
Proof.
  induction a as [|c a IH]; intros H; [reflexivity|].
  pose proof (rstrip_tail p c a H) as Ha.
  change (rstrip_by p (String c a ++ b))
    with (match rstrip_by p (a ++ b) with
          | EmptyString => if p c then EmptyString else String c EmptyString
          | String d r => String c (String d r)
          end).
  rewrite (IH Ha).
  destruct a as [|d a'].
  - simpl in H. simpl.
    destruct (rstrip_by p b); [|reflexivity].
    destruct (p c); [discriminate|reflexivity].
  - reflexivity.
Qed.

Lemma rstrip_drop p : forall n s,
  rstrip_by p s = s -> rstrip_by p (drop n s) = drop n s.
Proof.
  induction n as [|n IH]; intros s H; simpl; auto.
  destruct s as [|c s]; auto. apply IH. eapply rstrip_tail; eauto.
Qed.

Lemma length_drop : forall n s,
  String.length (drop n s) = (String.length s - n)%nat.
Proof.
  induction n as [|n IH]; intros [|c s]; simpl; auto.
Qed.

Lemma slice_from_drop s k :
  slice_from s k = drop (Z.to_nat (clip (len s) k)) s.
Proof.
  unfold slice_from, slice.
  assert (B : clip (len s) (len s) = len s).
  { unfold clip, len.
    assert (E : (Z.of_nat (String.length s) <? 0) = false) by (apply Z.ltb_ge; lia).
    rewrite E. lia. }
  rewrite B.
  assert (A : 0 <= clip (len s) k <= len s).
  { unfold clip, len.
    destruct (k <? 0) eqn:K; [apply Z.ltb_lt in K|apply Z.ltb_ge in K]; lia. }
  set (a := clip (len s) k) in *.
  replace (Z.to_nat (len s - a)) with (String.length (drop (Z.to_nat a) s)).
  - apply take_all.
  - rewrite length_drop. unfold len in *. lia.
Qed.

Lemma lstrip_rstrip_commute p s :
  lstrip_by p (rstrip_by p s) = rstrip_by p (lstrip_by p s).
Proof.
  induction s as [|c s IH]; auto.
  destruct (p c) eqn:Pc.
  - simpl lstrip_by at 2. rewrite Pc. rewrite <- IH.
    simpl. destruct (rstrip_by p s); simpl; rewrite Pc; reflexivity.
  - simpl lstrip_by at 2. rewrite Pc.
    destruct (rstrip_keeps_head p c s Pc) as [r E]. rewrite E.
    simpl. rewrite Pc. reflexivity.
Qed.

Lemma strip_rstrip s : strip (rstrip_by isspace s) = strip s.
Proof.
  unfold strip. rewrite lstrip_rstrip_commute. apply rstrip_idempotent.
Qed.

Lemma stamp_all q m s c :
  (forall a, is_number_char a = true -> q a = true) ->
  q ":"%char = true -> q "."%char = true ->
  all_chars q (stamp m s c) = true.
Proof.
  intros Hn H1 H2. rewrite stamp_shape.
  rewrite all_chars_append. cbn [all_chars]. rewrite all_chars_append. cbn [all_chars].
  rewrite !(all_chars_weaken _ _ _ Hn (format_02d_chars _)), H1, H2. reflexivity.
Qed.

(** The bracketed timestamp in front of an adjusted line has no character
    that [rstrip] or [strip] removes. *)
Lemma bracketed_stamp_rstrip p m s c :
  (forall a, is_number_char a = true -> p a = false) ->
  p ":"%char = false -> p "."%char = false -> p "["%char = false -> p "]"%char = false ->
  rstrip_by p (String "[" (stamp m s c ++ String "]" EmptyString))
  = String "[" (stamp m s c ++ String "]" EmptyString).
Proof.
  intros Hn H1 H2 H3 H4. apply rstrip_all.
  cbn [all_chars]. rewrite all_chars_append. cbn [all_chars].
  rewrite H3, H4. rewrite stamp_all; auto.
  - intros a Ha. rewrite (Hn a Ha). reflexivity.
  - rewrite H1. reflexivity.
  - rewrite H2. reflexivity.
Qed.

Lemma bracketed_split m s c x :
  ("[" ++ stamp m s c ++ "]" ++ x)%string
  = (String "[" (stamp m s c ++ String "]" EmptyString) ++ x)%string.
Proof.
  simpl. f_equal. generalize (stamp m s c). intros t.
  induction t; simpl; auto. f_equal; auto.
Qed.

Lemma bracketed_shape m s c x :
  ("[" ++ stamp m s c ++ "]" ++ x)%string = String "[" (stamp m s c ++ String "]" x).
Proof. reflexivity. Qed.

(** The text that the adjuster reads from a line ends as the line does,
    without a line terminator. *)
Lemma timed_line_text line t x :
  timed_line line = Some (t, x) -> rstrip_newlines x = x.
Proof.
  unfold timed_line.
  destruct (negb _ && _ && _); try discriminate.
  destruct ((0 <=? _) && _); try discriminate.
  destruct (parse_timestamp _); try discriminate.
  intros H. inversion H. rewrite slice_from_drop.
  apply rstrip_drop. apply rstrip_idempotent.
Qed.

(** Reading an adjusted line again, as the adjuster and as the player. *)
Lemma reread_adjusted m s c x :
  rstrip_newlines x = x ->
  timed_line ("[" ++ stamp m s c ++ "]" ++ x)
    = option_map (fun u => (u, x)) (total_seconds m s c) /\
  parse_line ("[" ++ stamp m s c ++ "]" ++ x)
    = if is_empty (strip x) then None
      else option_map (fun u => mkLyric u (strip x) (stamp m s c))
                      (total_seconds m s c).
Proof.
  intros Hx.
  assert (Hc : contains "]" (stamp m s c) = false) by (apply stamp_chars; reflexivity).
  assert (Ho : contains "[" (stamp m s c) = false) by (apply stamp_chars; reflexivity).
  split.
  - unfold timed_line.
    assert (R : rstrip_newlines ("[" ++ stamp m s c ++ "]" ++ x)
                = String "[" (stamp m s c ++ String "]" x)).
    { unfold rstrip_newlines. rewrite bracketed_split.
      rewrite rstrip_append.
      - unfold rstrip_newlines in Hx. rewrite Hx. rewrite <- bracketed_split. reflexivity.
      - apply bracketed_stamp_rstrip; try reflexivity.
        intros a Ha. destruct (number_char_cases a Ha) as (_ & E & _). exact E. }
    rewrite R. cbn [is_empty negb andb contains find].
    change (Ascii.eqb "[" "[") with true. change (Ascii.eqb "[" "]") with false.
    cbn [orb andb]. rewrite contains_append. cbn [contains].
    rewrite Ascii.eqb_refl, orb_true_r. cbv iota.
    rewrite (find_first _ _ _ Hc).
    assert (L : (len (stamp m s c) <? 0) = false) by (apply Z.ltb_ge; unfold len; lia).
    cbv zeta. rewrite L.
    assert (C : ((0 <=? 0) && (0 <? len (stamp m s c) + 1)) = true).
    { apply andb_true_iff. split; [reflexivity|]. apply Z.ltb_lt. unfold len. lia. }
    rewrite C.
    replace (len (stamp m s c) + 1) with (1 + len (stamp m s c)) by lia.
    change (0 + 1) with 1.
    rewrite slice_timestamp, slice_text.
    rewrite parse_timestamp_parse_time, parse_time_stamp.
    destruct (total_seconds m s c); reflexivity.
  - assert (S1 : strip ("[" ++ stamp m s c ++ "]" ++ x)
                 = String "[" (stamp m s c ++ String "]" (rstrip_by isspace x))).
    { unfold strip. rewrite bracketed_shape. cbn [lstrip_by].
      change (isspace "[") with false. cbv iota.
      rewrite <- bracketed_shape, bracketed_split.
      rewrite rstrip_append.
      - rewrite <- bracketed_split. reflexivity.
      - apply bracketed_stamp_rstrip; try reflexivity.
        intros a Ha. destruct (number_char_cases a Ha) as (E & _). exact E. }
    rewrite (parse_line_shape _ _ _ _ S1 ltac:(discriminate) Hc).
    rewrite strip_rstrip, parse_time_stamp.
    destruct (total_seconds m s c); reflexivity.
Qed.

(** X10. A line that the adjuster rewrites is the new timestamp, in
    brackets, followed by the text after the line's first closing bracket.
    The adjuster reads it again with that text and the time of the
    timestamp's fields, and the player parses it to that time and the
    trimmed text, or skips it when the text is blank. *)
Theorem adjusted_line_is_read_by_the_player : forall offset_seconds line out,
  adjust_line offset_seconds line = Some (out, true) ->
  exists t x m s c,
    timed_line line = Some (t, x) /\
    format_timestamp (PyFloat.add t offset_seconds) = Some (stamp m s c) /\
    out = ("[" ++ stamp m s c ++ "]" ++ x)%string /\
    timed_line out = option_map (fun u => (u, x)) (total_seconds m s c) /\
    parse_line out
      = if is_empty (strip x) then None
        else option_map (fun u => mkLyric u (strip x) (stamp m s c))
                        (total_seconds m s c).
Proof.
  intros offset_seconds line out H.
  destruct (timed_line line) as [[t x]|] eqn:T.
  - rewrite (adjust_line_timed _ _ _ _ T) in H.
    destruct (format_timestamp _) as [ts|] eqn:F; try discriminate.
    inversion H; subst.
    destruct (format_timestamp_stamp _ _ F) as (m & s & c & ->).
    destruct (reread_adjusted m s c x (timed_line_text _ _ _ T)) as [R1 R2].
    exists t, x, m, s, c. repeat split; auto.
  - rewrite (adjust_line_untimed _ _ T) in H. discriminate.
Qed.

(** X11. When the adjustment succeeds, the output has one line for each
    line of the input, the count that is reported is the number of lines
    that carry a timestamp, and a line that carries none is copied without
    its line terminator. *)
Theorem adjustment_keeps_the_lines : forall offset_seconds lines out count,
  adjust_lines offset_seconds lines = Some (out, count) ->
  List.length out = List.length lines /\
  count = Z.of_nat (List.length (timed_pairs_of lines)) /\
  (forall i line,
     nth_error lines i = Some line -> timed_line line = None ->
     nth_error out i = Some (rstrip_newlines line)).
Proof.
  intros offset_seconds lines. induction lines as [|line lines IH];
    intros out count H; simpl in H.
  - inversion H. repeat split; auto. intros [|i] l E; discriminate.
  - destruct (adjust_line offset_seconds line) as [[o b]|] eqn:A; try discriminate.
    destruct (adjust_lines offset_seconds lines) as [[os n]|] eqn:R; try discriminate.
    inversion H; subst. simpl fst. simpl snd.
    destruct (IH os n eq_refl) as (Hl & Hn & Hc).
    assert (B : b = match timed_line line with Some _ => true | None => false end
                /\ (timed_line line = None -> o = rstrip_newlines line)).
    { destruct (timed_line line) as [[t x]|] eqn:T.
      - rewrite (adjust_line_timed _ _ _ _ T) in A.
        destruct (format_timestamp _); inversion A. split; [auto|discriminate].
      - rewrite (adjust_line_untimed _ _ T) in A. inversion A. auto. }
    destruct B as [Hb Ho].
    repeat split.
    + simpl. lia.
    + simpl timed_pairs_of. rewrite Hb, Hn.
      destruct (timed_line line); simpl List.length; lia.
    + intros [|i] l E T; simpl in *.
      * inversion E; subst. rewrite (Ho T). reflexivity.
      * eapply Hc; eauto.
Qed.





Lemma written_timestamp_is_read_back_witness :
  format_timestamp (seconds_value 1 2 50) = Some "01:02.50"%string /\
  exists m s c,
    "01:02.50"%string = stamp m s c /\
    parse_timestamp "01:02.50" = total_seconds m s c /\
    parse_time "01:02.50" = total_seconds m s c.
Proof.
  split; [reflexivity|].
  exact (written_timestamp_is_read_back (seconds_value 1 2 50) "01:02.50" eq_refl).
Defined.

Lemma adjusted_line_is_read_by_the_player_witness :
  adjust_line (PyFloat.of_Z 2) "[00:01.00] hello " = Some ("[00:03.00] hello "%string, true) /\
  exists t x m s c,
    timed_line "[00:01.00] hello " = Some (t, x) /\
    format_timestamp (PyFloat.add t (PyFloat.of_Z 2)) = Some (stamp m s c) /\
    "[00:03.00] hello "%string = ("[" ++ stamp m s c ++ "]" ++ x)%string /\
    timed_line "[00:03.00] hello " = option_map (fun u => (u, x)) (total_seconds m s c) /\
    parse_line "[00:03.00] hello "
      = if is_empty (strip x) then None
        else option_map (fun u => mkLyric u (strip x) (stamp m s c))
                        (total_seconds m s c).
Proof.
  split; [reflexivity|].
  exact (adjusted_line_is_read_by_the_player (PyFloat.of_Z 2) "[00:01.00] hello "
           "[00:03.00] hello " eq_refl).
Defined.

Lemma adjustment_keeps_the_lines_witness :
  adjust_lines (PyFloat.of_Z 2) ["[ar:me]"; "[00:01.00]a"]%string
    = Some (["[ar:me]"; "[00:03.00]a"]%string, 1) /\
  List.length ["[ar:me]"; "[00:03.00]a"]%string = 2%nat.
Proof.
  split; [reflexivity|].
  exact (proj1 (adjustment_keeps_the_lines (PyFloat.of_Z 2)
                  ["[ar:me]"; "[00:01.00]a"]%string
                  ["[ar:me]"; "[00:03.00]a"]%string 1 eq_refl)).
Defined.


End AdjustMoreFacts.

(** ** The song library *)

Module LibraryFacts.

Import PyStr Library CharProps StrFacts StampFacts LyricsMoreFacts AdjustMoreFacts.

Lemma find_sub_unfold sub s :
  find_sub sub s =
    if startswith s sub then 0
    else match s with
         | EmptyString => -1
         | String _ s' =>
             let r := find_sub sub s' in if r <? 0 then -1 else r + 1
         end.
Proof. destruct s; reflexivity. Qed.

Lemma startswith_append p r : startswith (p ++ r) p = true.
Proof.
  induction p as [|a p IH]; [destruct r; reflexivity|].
  cbn [append startswith]. rewrite Ascii.eqb_refl. exact IH.
Qed.

Lemma append_assoc (a b c : string) : ((a ++ b) ++ c)%string = (a ++ b ++ c)%string.
Proof. induction a; simpl; auto. f_equal; auto. Qed.

(** The first [" - "] of a name whose first part has no hyphen. *)
Lemma find_separator a b :
  contains "-" a = false -> find_sub " - " (a ++ " - " ++ b) = len a.
Proof.
  unfold len. induction a as [|x a IH]; intros H.
  - change (EmptyString ++ " - " ++ b)%string with (" - " ++ b)%string.
    rewrite find_sub_unfold. rewrite startswith_append. reflexivity.
  - simpl in H. apply orb_false_iff in H. destruct H as [Hx Ha].
    rewrite find_sub_unfold.
    assert (S1 : startswith (a ++ " - " ++ b) "- " = false).
    { destruct a as [|y a'].
      - reflexivity.
      - simpl in Ha. apply orb_false_iff in Ha. destruct Ha as [Hy _].
        cbn [append startswith]. rewrite Ascii.eqb_sym, Hy. reflexivity. }
    assert (S0 : startswith (String x a ++ " - " ++ b) " - " = false).
    { change (String x a ++ " - " ++ b)%string with (String x (a ++ " - " ++ b)).
      cbn [startswith]. rewrite S1. apply andb_false_r. }
    rewrite S0.
    change (String x a ++ " - " ++ b)%string with (String x (a ++ " - " ++ b)).
    cbv iota zeta. rewrite (IH Ha).
    assert (L : (Z.of_nat (String.length a) <? 0) = false) by (apply Z.ltb_ge; lia).
    rewrite L. simpl String.length. lia.
Qed.

Lemma slice_prefix a r : slice (a ++ r) 0 (len a) = a.
Proof.
  unfold slice, clip, len. rewrite length_append.
  change (0 <? 0) with false. cbv iota.
  assert (L : (Z.of_nat (String.length a) <? 0) = false) by (apply Z.ltb_ge; lia).
  rewrite L, Z.min_l, Z.min_l by lia.
  rewrite Z.sub_0_r, Nat2Z.id. simpl drop. apply take_append.
Qed.

Lemma slice_suffix a r : slice_from (a ++ r) (len a) = r.
Proof.
  rewrite slice_from_drop. unfold clip, len. rewrite length_append.
  assert (L : (Z.of_nat (String.length a) <? 0) = false) by (apply Z.ltb_ge; lia).
  rewrite L, Z.min_l by lia. rewrite Nat2Z.id. apply drop_append.
Qed.

(** X13. A file name made of a first part without a hyphen, [" - "] and a
    second part is split back into the two parts, each trimmed: the artist
    and the title. *)
Theorem artist_and_title_split_back : forall a b,
  contains "-" a = false ->
  artist_title (a ++ " - " ++ b) = (strip a, strip b).
Proof.
  intros a b H. unfold artist_title, contains_sub, split_once.
  rewrite (find_separator a b H).
  assert (L : (len a <? 0) = false) by (apply Z.ltb_ge; unfold len; lia).
  assert (L' : (0 <=? len a) = true) by (apply Z.leb_le; unfold len; lia).
  rewrite L, L'. rewrite slice_prefix.
  replace (len a + len " - ") with (len (a ++ " - "))
    by (unfold len; rewrite length_append; simpl; lia).
  rewrite <- (append_assoc a " - " b), slice_suffix. reflexivity.
Qed.

Lemma artist_and_title_split_back_witness :
  artist_title "Billie Eilish - Birds of a Feather"
  = ("Billie Eilish", "Birds of a Feather")%string.
Proof.
  exact (artist_and_title_split_back "Billie Eilish" "Birds of a Feather" eq_refl).
Defined.

(** X14. The lyrics of a song are the first path that exists among the
    candidates, in this order: the name of the MP3 with [.lrc], then with
    [_synced.lrc], [_early.lrc], [_adjusted.lrc] and [_complete.lrc]; the
    song has lyrics exactly when one of them exists. *)
Theorem lyrics_lookup_order :
  forall path_exists path_join basename splitext_root lyrics_folder mp3_path,
    let s := scan_one path_exists path_join basename splitext_root
                      lyrics_folder mp3_path in
    let candidates :=
      lrc_candidates path_join lyrics_folder (splitext_root (basename mp3_path)) in
    lrc_path s = List.find path_exists candidates /\
    has_lyrics s = existsb path_exists candidates.
Proof.
  intros path_exists path_join basename splitext_root lyrics_folder mp3_path.
  unfold scan_one, find_lrc, lrc_candidates.
  destruct (artist_title _) as [a t].
  set (name := splitext_root (basename mp3_path)).
  cbn [map List.find existsb first_existing lrc_path has_lyrics].
  set (p0 := path_join lyrics_folder (name ++ ".lrc")%string).
  set (p1 := path_join lyrics_folder (name ++ "_synced.lrc")%string).
  set (p2 := path_join lyrics_folder (name ++ "_early.lrc")%string).
  set (p3 := path_join lyrics_folder (name ++ "_adjusted.lrc")%string).
  set (p4 := path_join lyrics_folder (name ++ "_complete.lrc")%string).
  destruct (path_exists p0) eqn:E0; cbn [negb orb];
    [rewrite E0; split; reflexivity|].
  destruct (path_exists p1) eqn:E1; cbn [orb];
    [rewrite E1; split; reflexivity|].
  destruct (path_exists p2) eqn:E2; cbn [orb];
    [rewrite E2; split; reflexivity|].
  destruct (path_exists p3) eqn:E3; cbn [orb];
    [rewrite E3; split; reflexivity|].
  destruct (path_exists p4) eqn:E4; cbn [orb];
    [rewrite E4; split; reflexivity|].
  rewrite E0. split; reflexivity.
Qed.

Section SortFacts.

Context {A K : Type}.
Variable key : A -> K.
Variable lt : K -> K -> bool.

Lemma insert_by_perm x l : Permutation (x :: l) (insert_by key lt x l).
Proof.
  induction l as [|y l IH]; simpl; auto.
  destruct (lt (key y) (key x)); auto.
  eapply perm_trans; [apply perm_swap|]. auto.
Qed.

Lemma sort_by_perm l : Permutation l (sort_by key lt l).
Proof.
  induction l as [|x l IH]; simpl; auto.
  eapply perm_trans; [|apply insert_by_perm]. auto.
Qed.

Hypothesis lt_asym : forall a b, lt a b = true -> lt b a = false.

Lemma insert_by_sorted x l :
  Sorted (in_order key lt) l -> Sorted (in_order key lt) (insert_by key lt x l).
Proof.
  induction 1 as [|y l Hs IH Hd]; simpl; auto.
  destruct (lt (key y) (key x)) eqn:E.
  - constructor; auto.
    assert (Hyx : in_order key lt y x) by (apply lt_asym, E).
    destruct l as [|z l]; simpl; auto.
    inversion Hd; subst.
    destruct (lt (key z) (key x)); auto.
  - constructor; [constructor; assumption|constructor; exact E].
Qed.

Lemma sort_by_sorted l : Sorted (in_order key lt) (sort_by key lt l).
Proof.
  induction l as [|x l IH]; simpl; auto. apply insert_by_sorted, IH.
Qed.

Variable same : K -> K -> bool.
Hypothesis same_not_lt : forall a b k,
  same a k = true -> same b k = true -> lt a b = false.

Lemma filter_insert_by k x l :
  filter (fun y => same (key y) k) (insert_by key lt x l)
  = filter (fun y => same (key y) k) (x :: l).
Proof.
  induction l as [|y l IH]; simpl; auto.
  destruct (lt (key y) (key x)) eqn:E; simpl; auto.
  rewrite IH. simpl.
  destruct (same (key x) k) eqn:Ex, (same (key y) k) eqn:Ey; auto.
  rewrite (same_not_lt _ _ _ Ey Ex) in E. discriminate.
Qed.

Lemma filter_sort_by k l :
  filter (fun y => same (key y) k) (sort_by key lt l)
  = filter (fun y => same (key y) k) l.
Proof.
  induction l as [|x l IH]; simpl; auto.
  rewrite filter_insert_by. simpl. rewrite IH. reflexivity.
Qed.

End SortFacts.

Lemma string_ltb_asym a b : String.ltb a b = true -> String.ltb b a = false.
Proof.
  unfold String.ltb. rewrite (String.compare_antisym b a).
  destruct (String.compare a b); simpl; auto; discriminate.
Qed.

Lemma string_compare_refl a : String.compare a a = Eq.
Proof.
  induction a as [|c a IH]; simpl; auto.
  assert (E : Ascii.compare c c = Eq).
  { unfold Ascii.compare. apply N.compare_refl. }
  rewrite E. exact IH.
Qed.

Lemma string_same_not_ltb a b k :
  String.eqb a k = true -> String.eqb b k = true -> String.ltb a b = false.
Proof.
  intros Ha Hb. apply String.eqb_eq in Ha, Hb. subst.
  unfold String.ltb. rewrite string_compare_refl. reflexivity.
Qed.

Lemma sorted_adjacent_by {A} (R : A -> A -> Prop) l :
  Sorted R l ->
  forall i a b, nth_error l i = Some a -> nth_error l (S i) = Some b -> R a b.
Proof.
  induction 1 as [|x l Hs IH Hd]; intros i a b Ha Hb.
  - destruct i; discriminate.
  - destruct i as [|i]; simpl in *.
    + inversion Ha; subst. destruct l; try discriminate.
      inversion Hb; subst. inversion Hd; auto.
    + eapply IH; eauto.
Qed.

(** X15. [scan_songs] leaves the songs in ascending order of their titles
    in small letters; songs whose titles agree up to capitals stay in the
    order in which the files were found; and the songs are those of the
    files, one each. *)
Theorem songs_sorted_by_title :
  forall path_exists path_join basename splitext_root lyrics_folder mp3_files,
    let found := map (scan_one path_exists path_join basename splitext_root
                               lyrics_folder) mp3_files in
    let songs := snd (scan_songs path_exists path_join basename splitext_root
                                 lyrics_folder mp3_files) in
    (forall i a b,
       nth_error songs i = Some a -> nth_error songs (S i) = Some b ->
       String.leb (title_key a) (title_key b) = true) /\
    (forall k,
       filter (fun s => String.eqb (title_key s) k) songs
       = filter (fun s => String.eqb (title_key s) k) found) /\
    Permutation found songs.
Proof.
  intros path_exists path_join basename splitext_root lyrics_folder mp3_files
         found songs.
  assert (E : songs = sort_by title_key String.ltb found).
  { unfold songs, found, scan_songs. destruct mp3_files; reflexivity. }
  rewrite E. repeat split.
  - intros i a b Ha Hb.
    pose proof (sorted_adjacent_by _ _
                  (sort_by_sorted title_key String.ltb string_ltb_asym found)
                  i a b Ha Hb) as H.
    unfold in_order, String.ltb in H. unfold String.leb.
    rewrite (String.compare_antisym (title_key b) (title_key a)) in H.
    destruct (String.compare (title_key a) (title_key b)); simpl in *;
      auto; discriminate.
  - intros k. apply (filter_sort_by title_key String.ltb String.eqb
                       string_same_not_ltb).
  - apply sort_by_perm.
Qed.

Lemma enumerate_in : forall songs start idx s,
  In (idx, s) (enumerate start songs) ->
  start <= idx < start + Z.of_nat (List.length songs) /\
  nth_error songs (Z.to_nat (idx - start)) = Some s.
Proof.
  induction songs as [|x songs IH]; intros start idx s H; simpl in H; [tauto|].
  destruct H as [H|H].
  - inversion H; subst. simpl List.length. split; [lia|].
    rewrite Z.sub_diag. reflexivity.
  - destruct (IH _ _ _ H) as [Hr Hn]. simpl List.length. split; [lia|].
    replace (Z.to_nat (idx - start)) with (S (Z.to_nat (idx - (start + 1)))) by lia.
    exact Hn.
Qed.

Lemma decimal_digits n : all_chars is_digit (decimal n) = true.
Proof. exact (padded_digits 0 n). Qed.

Lemma lower_digits s : all_chars is_digit s = true -> lower s = s.
Proof.
  induction s as [|c s IH]; simpl; auto.
  intros H. apply andb_true_iff in H. destruct H as [Hc Hs].
  rewrite (IH Hs). f_equal.
  unfold is_digit, digit_val in Hc. unfold lower_char.
  destruct ((48 <=? ord c) && (ord c <=? 57)) eqn:D; try discriminate.
  apply andb_true_iff in D. destruct D as [D1 D2]. apply Z.leb_le in D1, D2.
  assert (U : (65 <=? ord c) = false) by (apply Z.leb_gt; lia).
  rewrite U. reflexivity.
Qed.

(** X16. Typing the number that [display_songs] shows in front of a song
    selects that song. *)
Theorem shown_number_selects_the_song : forall songs shown s,
  In (shown, s) (display_songs songs) ->
  choose songs shown = Selected s.
Proof.
  intros songs shown s H. unfold display_songs in H.
  apply in_map_iff in H. destruct H as ([idx s'] & E & Hin).
  simpl in E. inversion E; subst. clear E.
  destruct (enumerate_in _ _ _ _ Hin) as [Hr Hn].
  unfold str_of_int.
  assert (Hneg : (idx <? 0) = false) by (apply Z.ltb_ge; lia).
  rewrite Hneg. unfold choose.
  pose proof (decimal_digits idx) as D.
  assert (N : all_chars is_number_char (decimal idx) = true)
    by (eapply all_chars_weaken; [apply digit_is_number_char|exact D]).
  rewrite (strip_number _ N), (lower_digits _ D).
  assert (Q : String.eqb (decimal idx) "q" = false).
  { destruct (String.eqb (decimal idx) "q") eqn:Eq; auto.
    apply String.eqb_eq in Eq. rewrite Eq in D. discriminate. }
  rewrite Q, (int_of_str_digits _ D), int_digits_decimal by lia.
  unfold get_song_by_index.
  assert (B : ((1 <=? idx) && (idx <=? Z.of_nat (List.length songs))) = true).
  { apply andb_true_iff. split; apply Z.leb_le; lia. }
  rewrite B, Hn. reflexivity.
Qed.

Lemma shown_number_selects_the_song_witness :
  choose [mkSong "a.mp3" None "a.mp3" "Unknown Artist" "a" false;
          mkSong "b.mp3" None "b.mp3" "Unknown Artist" "b" false] "2"
  = Selected (mkSong "b.mp3" None "b.mp3" "Unknown Artist" "b" false).
Proof.
  apply shown_number_selects_the_song.
  right. left. reflexivity.
Defined.

Lemma nth_enumerate : forall songs start k s,
  nth_error songs k = Some s ->
  In (start + Z.of_nat k, s) (enumerate start songs).
Proof.
  induction songs as [|x songs IH]; intros start k s H.
  - destruct k; discriminate.
  - destruct k as [|k]; simpl in H.
    + inversion H; subst. left. f_equal. simpl. lia.
    + right. replace (start + Z.of_nat (S k)) with (start + 1 + Z.of_nat k) by lia.
      apply IH. exact H.
Qed.

(** X17. Only a song of the list is ever selected: when the menu selects a
    song, what was typed is, after trimming, a number, and
    [display_songs] shows that number in front of that song. *)
Theorem only_a_shown_song_is_selected : forall songs typed s,
  choose songs typed = Selected s ->
  exists idx,
    int_of_str (strip typed) = Some idx /\
    In (str_of_int idx, s) (display_songs songs).
Proof.
  intros songs typed s H. unfold choose in H.
  destruct (String.eqb (lower (strip typed)) "q"); [discriminate|].
  destruct (int_of_str (strip typed)) as [idx|]; [|discriminate].
  exists idx. split; [reflexivity|].
  unfold get_song_by_index in H.
  destruct ((1 <=? idx) && (idx <=? Z.of_nat (List.length songs))) eqn:B;
    [|discriminate].
  apply andb_true_iff in B. destruct B as [B1 B2]. apply Z.leb_le in B1, B2.
  destruct (nth_error songs (Z.to_nat (idx - 1))) as [s'|] eqn:N; [|discriminate].
  inversion H; subst. clear H.
  unfold display_songs. apply in_map_iff.
  exists (idx, s). split; [reflexivity|].
  replace idx with (1 + Z.of_nat (Z.to_nat (idx - 1))) at 1 by lia.
  apply nth_enumerate. exact N.
Qed.

Lemma only_a_shown_song_is_selected_witness :
  exists idx,
    int_of_str (strip " 02 ") = Some idx /\
    In (str_of_int idx, mkSong "b.mp3" None "b.mp3" "Unknown Artist" "b" false)
       (display_songs
          [mkSong "a.mp3" None "a.mp3" "Unknown Artist" "a" false;
           mkSong "b.mp3" None "b.mp3" "Unknown Artist" "b" false]).
Proof.
  exact (only_a_shown_song_is_selected
           [mkSong "a.mp3" None "a.mp3" "Unknown Artist" "a" false;
            mkSong "b.mp3" None "b.mp3" "Unknown Artist" "b" false]
           " 02 " _ eq_refl).
Defined.

End LibraryFacts.

(** ** File names *)

Module NamingFacts.

Import PyStr Naming StrFacts LibraryFacts AdjustMoreFacts.

Lemma replace_removes old new s :
  contains old new = false -> contains old (replace_char old new s) = false.
Proof.
  intros H. induction s as [|c s IH]; simpl; auto.
  destruct (Ascii.eqb c old) eqn:E.
  - rewrite contains_append, H, IH. reflexivity.
  - simpl. rewrite E, IH. reflexivity.
Qed.

Lemma replace_preserves c old new s :
  contains c s = false -> contains c new = false ->
  contains c (replace_char old new s) = false.
Proof.
  intros Hs Hn. induction s as [|a s IH]; simpl; auto.
  simpl in Hs. apply orb_false_iff in Hs. destruct Hs as [Ha Hs].
  destruct (Ascii.eqb a old).
  - rewrite contains_append, Hn, (IH Hs). reflexivity.
  - simpl. rewrite Ha, (IH Hs). reflexivity.
Qed.

Lemma replace_append old new x y :
  replace_char old new (x ++ y)
  = (replace_char old new x ++ replace_char old new y)%string.
Proof.
  induction x as [|c x IH]; simpl; auto.
  destruct (Ascii.eqb c old); rewrite IH.
  - symmetry. apply append_assoc.
  - reflexivity.
Qed.

Lemma startswith_refl s : startswith s s = true.
Proof.
  induction s as [|c s IH]; [reflexivity|].
  cbn [startswith]. rewrite Ascii.eqb_refl. exact IH.
Qed.

Lemma endswith_append x y : endswith (x ++ y) y = true.
Proof.
  unfold endswith. rewrite length_append.
  assert (L : (String.length y <=? String.length x + String.length y)%nat = true)
    by (apply Nat.leb_le; lia).
  rewrite L.
  replace (String.length x + String.length y - String.length y)%nat
    with (String.length x) by lia.
  rewrite drop_append. apply startswith_refl.
Qed.

Lemma lower_append x y : lower (x ++ y) = (lower x ++ lower y)%string.
Proof. induction x; simpl; auto. f_equal; auto. Qed.

(** X18. The suggested file name has none of the characters that a file
    name cannot have. *)
Theorem suggestion_has_no_forbidden_character : forall artist song c,
  In c forbidden ->
  contains c (suggested_filename artist song) = false.
Proof.
  intros artist song c H. unfold forbidden in H. simpl in H.
  unfold suggested_filename.
  repeat (destruct H as [<-|H];
          [repeat first [ apply replace_removes; reflexivity
                        | apply replace_preserves; [|reflexivity] ]|]).
  contradiction.
Qed.

Lemma suggestion_has_no_forbidden_character_witness :
  contains ":" (suggested_filename "AC/DC" "Who: me?") = false.
Proof.
  apply (suggestion_has_no_forbidden_character "AC/DC" "Who: me?" ":").
  simpl. tauto.
Defined.

(** The suggestion keeps its ending. *)
Lemma suggestion_ends_with_lrc artist song :
  exists stem, suggested_filename artist song = (stem ++ ".lrc")%string.
Proof.
  unfold suggested_filename.
  replace (artist ++ " - " ++ song ++ ".lrc")%string
    with ((artist ++ " - " ++ song) ++ ".lrc")%string.
  2:{ rewrite !append_assoc. reflexivity. }
  rewrite !replace_append. eexists. reflexivity.
Qed.

(** X19. The name under which the lyrics are saved always ends with
    [.lrc], in small or capital letters; the suggested name already does,
    so it is taken as it is when nothing is typed. *)
Theorem lyrics_file_name_ends_with_lrc : forall typed suggested artist song,
  endswith (lower (lrc_filename typed suggested)) ".lrc" = true /\
  lrc_filename EmptyString (suggested_filename artist song)
  = suggested_filename artist song.
Proof.
  intros typed suggested artist song. split.
  - unfold lrc_filename.
    set (filename := if is_empty (strip typed) then suggested else strip typed).
    destruct (endswith (lower filename) ".lrc") eqn:E; simpl; auto.
    rewrite lower_append. apply endswith_append.
  - unfold lrc_filename. change (strip EmptyString) with EmptyString.
    cbn [is_empty].
    destruct (suggestion_ends_with_lrc artist song) as [stem E].
    rewrite E at 1. rewrite lower_append.
    change (lower ".lrc") with ".lrc"%string.
    rewrite endswith_append. reflexivity.
Qed.

(** X20. A custom file name gives the same download whether or not [.mp3]
    is typed after it: the same template and the same reported file, the
    name with [.mp3]. *)
Theorem typed_mp3_suffix_is_dropped : forall path_join output_folder name title,
  is_empty name = false ->
  endswith name ".mp3" = false ->
  output_names path_join output_folder (Some (name ++ ".mp3")%string) title
  = output_names path_join output_folder (Some name) title /\
  snd (output_names path_join output_folder (Some name) title)
  = path_join output_folder (name ++ ".mp3")%string.
Proof.
  intros path_join output_folder name title Hn He.
  assert (S1 : custom_stem (name ++ ".mp3") = name).
  { unfold custom_stem. rewrite endswith_append.
    unfold slice, clip, len. rewrite length_append.
    change (0 <? 0) with false. change (-4 <? 0) with true. cbv iota.
    simpl String.length.
    rewrite Z.min_l, Z.max_r by lia.
    replace (Z.to_nat (-4 + Z.of_nat (String.length name + 4) - 0))
      with (String.length name) by lia.
    simpl drop. apply take_append. }
  assert (S2 : custom_stem name = name).
  { unfold custom_stem. rewrite He. reflexivity. }
  assert (N : is_empty (name ++ ".mp3") = false) by (destruct name; reflexivity).
  unfold output_names. rewrite N, Hn, S1, S2, Hn. split; reflexivity.
Qed.

Lemma typed_mp3_suffix_is_dropped_witness :
  output_names (fun a b => a ++ "/" ++ b)%string "songs"
               (Some "Coldplay - Yellow.mp3"%string) "video"
  = output_names (fun a b => a ++ "/" ++ b)%string "songs"
                 (Some "Coldplay - Yellow"%string) "video".
Proof.
  exact (proj1 (typed_mp3_suffix_is_dropped (fun a b => a ++ "/" ++ b)%string
                  "songs" "Coldplay - Yellow" "video" eq_refl eq_refl)).
Defined.

End NamingFacts.
